(** * The flows manager store: registry, autosave debounce, undo/redo history

    A shallow embedding of [src/frontend/src/stores/flowsManagerStore.ts].

    The store is a zustand object ([currentFlowId], [flows], [currentFlow],
    [isLoading]) next to three module-level variables ([saveTimeoutId],
    [past], [future]).  Its operations are embedded as functions on a
    [World] that also carries the collaborators the operations talk to: the
    Graph Session ([useFlowStore]), the JavaScript timer queue, the gateway
    requests still in flight, and a log of every call made to a
    collaborator.

    Asynchronous code is cut at its suspension points: the part of an
    operation that runs before its first [await]/[.then] is the operation
    itself, and each continuation closure is a constructor of
    [Continuation] (or of [TimerCallback] for [setTimeout] closures),
    interpreted by [deliver] and [fire] when the response arrives or the
    timer is due.  Time is a logical clock in milliseconds.  With a file
    [uploadFlow] does nothing before its [await file.text()], so what is
    embedded under its name is the part that runs once the file has been
    read: its world is the store at that moment and its promise the state of
    the promise when that part has run.

    Embedded: [setCurrentFlowId], [setFlows], [autoSaveCurrentFlow],
    [saveFlow], [addFlow], [removeFlow], [deleteComponent], [uploadFlow],
    [takeSnapshot], [undo], [redo].  [refreshFlows], [uploadFlows] and
    [saveComponent] touch neither the history nor the timers and are left
    out. *)

From Stdlib Require Import ZArith Ascii String List Lia.
From stdpp Require Import gmap strings list fin_maps pretty.

Local Open Scope Z_scope.

(** ** JavaScript values the store relies on *)

(** [Array.prototype.slice(start, end)]: a negative index counts from the
    end of the array, and both indices are clamped to [0, length]. *)
Definition relative_index (len i : Z) : Z :=
  if i <? 0 then Z.max (len + i) 0 else Z.min i len.

Definition slice {A} (l : list A) (start end_ : Z) : list A :=
  let len := Z.of_nat (length l) in
  let k := relative_index len start in
  let final := relative_index len end_ in
  take (Z.to_nat (final - k)) (drop (Z.to_nat k) l).

(** [arr?.length ?? 0] on a possibly-undefined array. *)
Definition length_or_0 {A} (arr : option (list A)) : Z :=
  match arr with
  | Some l => Z.of_nat (length l)
  | None => 0
  end.

(** [arr?.[i] ?? null] on a possibly-undefined array; an index outside the
    array reads [undefined]. *)
Definition index_or_null {A} (arr : option (list A)) (i : Z) : option A :=
  match arr with
  | Some l => if i <? 0 then None else l !! Z.to_nat i
  | None => None
  end.

(** lodash's [cloneDeep].  Values of the embedding are immutable, so a deep
    copy is the value itself. *)
Definition cloneDeep {A} (a : A) : A := a.

(** The state of a promise at the moment the call that made it returns; for
    [uploadFlow] with a file, at the moment the part that follows the file
    read has run. *)
Inductive Promise (A : Type) : Type :=
| Resolved (value : A)
| Rejected (reason : string)
| Pending.
Arguments Resolved {A} value.
Arguments Rejected {A} reason.
Arguments Pending {A}.

Record UseUndoRedoOptions := {
  maxHistorySize : Z;
  enableShortcuts : bool
}.

Definition defaultOptions : UseUndoRedoOptions :=
  {| maxHistorySize := 100; enableShortcuts := true |}.

(** ** Data model *)

Section Model.

(** reactflow's [Node] and [Edge]; JavaScript numbers; the catalog of saved
    components that [processFlows] computes. *)
Context {Node Edge Number SavedComponents : Type}.

Record XYPosition := { pos_x : Number; pos_y : Number }.

Record Viewport := { zoom : Number; view_x : Number; view_y : Number }.

(** The graph payload of a document (reactflow's [ReactFlowJsonObject]). *)
Record FlowData := {
  data_nodes : list Node;
  data_edges : list Edge;
  data_viewport : Viewport
}.

(** [FlowType], with the fields the store reads or writes.  [data] is
    nullable (the store reads it as [flow!.data!]). *)
Record FlowType := {
  flow_id : string;
  flow_name : string;
  is_component : option bool;
  data : option FlowData
}.

(** A history entry: what [takeSnapshot], [undo] and [redo] push. *)
Record HistoryEntry := {
  nodes : list Node;
  edges : list Edge
}.

(** What [JSON.parse] makes of an uploaded file: the payload read as a
    single document, and its [flows] member when it is a bundle. *)
Record FileData := {
  file_flow : FlowType;
  file_flows : option (list FlowType)
}.

(** Calls the store makes to its collaborators, in the order made. *)
Inductive Event :=
| EvSaveFlowToDatabase (flow : FlowType)
| EvUpdateFlowInDatabase (flow : FlowType)
| EvDeleteFlowFromDatabase (id : string)
| EvPaste (selection : HistoryEntry) (position : XYPosition)
| EvSetNodes (ns : list Node)
| EvSetEdges (es : list Edge)
| EvSetSuccessData (title : string)
| EvSetErrorData (title : string) (details : list string)
| EvSetSavedComponents (components : SavedComponents)
| EvOpenFileDialog.

(** Closures handed to [setTimeout]. *)
Inductive TimerCallback :=
| AutoSaveTimeout (ns : list Node) (es : list Edge) (viewport : Viewport)
| AddFlowTimeout (newFlow : FlowType).

Record Timer := {
  timer_id : positive;
  timer_due : Z;
  timer_callback : TimerCallback
}.

(** Closures waiting for a gateway response. *)
Inductive Continuation :=
| SaveFlowThen (silent : bool)
| RemoveFlowThen (id : string)
| AddFlowOverrideAwait (newFlow : FlowType)
| AddFlowAwait (newFlow : FlowType).

Record Request := {
  request_id : positive;
  request_continuation : Continuation
}.

(** What the gateway answers. *)
Inductive Response :=
| RespCreated (id : string)
| RespUpdated (updatedFlow : option FlowType)
| RespDeleted
| RespError (message : string).

Record World := {
  (* the zustand store *)
  currentFlowId : string;
  flows : list FlowType;
  currentFlow : option FlowType;
  isLoading : bool;
  (* module-level variables; [past] and [future] are objects used as maps
     from document identifier to stack, and identifiers are taken not to
     be names of members of [Object.prototype] *)
  saveTimeoutId : option positive;
  past : gmap string (list HistoryEntry);
  future : gmap string (list HistoryEntry);
  (* the Graph Session *)
  session_nodes : list Node;
  session_edges : list Edge;
  (* the runtime *)
  clock : Z;
  nextId : positive;
  timers : list Timer;
  inflight : list Request;
  (* calls made so far *)
  log : list Event
}.

Definition set_registry (fl : list FlowType) (cur : option FlowType) (w : World) : World :=
  {| currentFlowId := currentFlowId w; flows := fl; currentFlow := cur;
     isLoading := isLoading w; saveTimeoutId := saveTimeoutId w;
     past := past w; future := future w;
     session_nodes := session_nodes w; session_edges := session_edges w;
     clock := clock w; nextId := nextId w; timers := timers w;
     inflight := inflight w; log := log w |}.

Definition set_currentFlowId (i : string) (w : World) : World :=
  {| currentFlowId := i; flows := flows w; currentFlow := currentFlow w;
     isLoading := isLoading w; saveTimeoutId := saveTimeoutId w;
     past := past w; future := future w;
     session_nodes := session_nodes w; session_edges := session_edges w;
     clock := clock w; nextId := nextId w; timers := timers w;
     inflight := inflight w; log := log w |}.

Definition set_isLoading (b : bool) (w : World) : World :=
  {| currentFlowId := currentFlowId w; flows := flows w; currentFlow := currentFlow w;
     isLoading := b; saveTimeoutId := saveTimeoutId w;
     past := past w; future := future w;
     session_nodes := session_nodes w; session_edges := session_edges w;
     clock := clock w; nextId := nextId w; timers := timers w;
     inflight := inflight w; log := log w |}.

Definition set_saveTimeoutId (t : option positive) (w : World) : World :=
  {| currentFlowId := currentFlowId w; flows := flows w; currentFlow := currentFlow w;
     isLoading := isLoading w; saveTimeoutId := t;
     past := past w; future := future w;
     session_nodes := session_nodes w; session_edges := session_edges w;
     clock := clock w; nextId := nextId w; timers := timers w;
     inflight := inflight w; log := log w |}.

Definition set_history (p f : gmap string (list HistoryEntry)) (w : World) : World :=
  {| currentFlowId := currentFlowId w; flows := flows w; currentFlow := currentFlow w;
     isLoading := isLoading w; saveTimeoutId := saveTimeoutId w;
     past := p; future := f;
     session_nodes := session_nodes w; session_edges := session_edges w;
     clock := clock w; nextId := nextId w; timers := timers w;
     inflight := inflight w; log := log w |}.

Definition set_session (ns : list Node) (es : list Edge) (w : World) : World :=
  {| currentFlowId := currentFlowId w; flows := flows w; currentFlow := currentFlow w;
     isLoading := isLoading w; saveTimeoutId := saveTimeoutId w;
     past := past w; future := future w;
     session_nodes := ns; session_edges := es;
     clock := clock w; nextId := nextId w; timers := timers w;
     inflight := inflight w; log := log w |}.

Definition set_runtime (c : Z) (n : positive) (ts : list Timer) (rs : list Request)
    (w : World) : World :=
  {| currentFlowId := currentFlowId w; flows := flows w; currentFlow := currentFlow w;
     isLoading := isLoading w; saveTimeoutId := saveTimeoutId w;
     past := past w; future := future w;
     session_nodes := session_nodes w; session_edges := session_edges w;
     clock := c; nextId := n; timers := ts; inflight := rs; log := log w |}.

Definition emit (e : Event) (w : World) : World :=
  {| currentFlowId := currentFlowId w; flows := flows w; currentFlow := currentFlow w;
     isLoading := isLoading w; saveTimeoutId := saveTimeoutId w;
     past := past w; future := future w;
     session_nodes := session_nodes w; session_edges := session_edges w;
     clock := clock w; nextId := nextId w; timers := timers w;
     inflight := inflight w; log := log w ++ [e] |}.

End Model.

Arguments XYPosition : clear implicits.
Arguments Viewport : clear implicits.
Arguments FlowData : clear implicits.
Arguments FlowType : clear implicits.
Arguments HistoryEntry : clear implicits.
Arguments FileData : clear implicits.
Arguments Event : clear implicits.
Arguments TimerCallback : clear implicits.
Arguments Timer : clear implicits.
Arguments Continuation : clear implicits.
Arguments Request : clear implicits.
Arguments Response : clear implicits.
Arguments World : clear implicits.

(** ** Collaborators

    Functions the store imports and the sources do not contain: the
    platform's [JSON.stringify] and [JSON.parse], the helpers of
    [utils/reactflowUtils], and what a paste does to the Graph Session.
    [File] is the platform's uploaded file. *)
Class Externals (Node Edge Number SavedComponents File : Type) := {
  (* a numeric literal *)
  number : Z -> Number;
  (* [JSON.stringify] on a history entry *)
  stringify : HistoryEntry Node Edge -> string;
  (* [JSON.parse(await file.text())]; [None] when it throws *)
  parse : File -> option (FileData Node Edge Number);
  processDataFromFlow : FlowType Node Edge Number -> option (FlowData Node Edge Number);
  createNewFlow : option (FlowData Node Edge Number) -> option (FlowType Node Edge Number) ->
                  FlowType Node Edge Number;
  addVersionToDuplicates : FlowType Node Edge Number -> list (FlowType Node Edge Number) -> string;
  processFlows : list (FlowType Node Edge Number) ->
                 SavedComponents * list (FlowType Node Edge Number);
  (* the nodes and edges of the Graph Session after [paste] *)
  pasted : HistoryEntry Node Edge -> XYPosition Number ->
           list Node * list Edge -> list Node * list Edge
}.

Record UploadFlowArgs (Number File : Type) := {
  newProject : bool;
  file : option File;
  isComponent : option bool;
  position : option (XYPosition Number)
}.
Arguments newProject {Number File} _.
Arguments file {Number File} _.
Arguments isComponent {Number File} _.
Arguments position {Number File} _.
Arguments Build_UploadFlowArgs {Number File} _ _ _ _.

(** ** The store *)

Section Store.

Context {Node Edge Number SavedComponents File : Type}.
Context `{!Externals Node Edge Number SavedComponents File}.

Local Abbreviation flow := (FlowType Node Edge Number).
Local Abbreviation entry := (HistoryEntry Node Edge).
Local Abbreviation world := (World Node Edge Number SavedComponents).
Local Abbreviation timer := (Timer Node Edge Number).
Local Abbreviation request := (Request Node Edge Number).

Definition initial : world :=
  {| currentFlowId := EmptyString; flows := []; currentFlow := None; isLoading := true;
     saveTimeoutId := None; past := ∅; future := ∅;
     session_nodes := []; session_edges := [];
     clock := 0; nextId := 1%positive; timers := []; inflight := [];
     log := [] |}.

(** *** Runtime: timers and gateway calls *)

(** [setTimeout(callback, ms)]: a fresh timer id, due [ms] after now. *)
Definition setTimeout (callback : TimerCallback Node Edge Number) (ms : Z) (w : world)
    : positive * world :=
  (nextId w,
   set_runtime (clock w) (Pos.succ (nextId w))
     (timers w ++ [{| timer_id := nextId w; timer_due := clock w + ms;
                      timer_callback := callback |}])
     (inflight w) w).

(** [clearTimeout(id)]: the timer is dropped if still pending. *)
Definition clearTimeout (t : positive) (w : world) : world :=
  set_runtime (clock w) (nextId w)
    (filter (fun tm : timer => timer_id tm ≠ t) (timers w)) (inflight w) w.

(** A gateway call: the call is made now, its continuation runs when the
    response is delivered. *)
Definition call_gateway (e : Event Node Edge Number SavedComponents)
    (k : Continuation Node Edge Number) (w : world) : world :=
  let w := emit e w in
  set_runtime (clock w) (Pos.succ (nextId w)) (timers w)
    (inflight w ++ [{| request_id := nextId w; request_continuation := k |}]) w.

(** *** The Graph Session *)

(** Modelled from the spec: [useFlowStore] is not among the sources.  Its
    [setNodes] and [setEdges] are the setters of the Graph Session contract:
    each replaces the sequence it names. *)
Definition setNodes (ns : list Node) (w : world) : world :=
  emit (EvSetNodes ns) (set_session ns (session_edges w) w).

Definition setEdges (es : list Edge) (w : world) : world :=
  emit (EvSetEdges es) (set_session (session_nodes w) es w).

(** Modelled from the spec: the Graph Session's [paste(payload, position)];
    what it leaves in the session is the collaborator's [pasted]. *)
Definition paste (selection : entry) (pos : XYPosition Number) (w : world) : world :=
  let '(ns, es) := pasted selection pos (session_nodes w, session_edges w) in
  emit (EvPaste selection pos) (set_session ns es w).

(** *** Flow registry *)

Definition find_flow (i : string) (fl : list flow) : option flow :=
  List.find (fun f => String.eqb (flow_id f) i) fl.

Definition setCurrentFlowId (i : string) (w : world) : world :=
  set_registry (flows w) (find_flow i (flows w)) (set_currentFlowId i w).

Definition setFlows (fl : list flow) (w : world) : world :=
  set_registry fl (find_flow (currentFlowId w) fl) w.

Definition truthy (b : option bool) : bool :=
  match b with
  | Some true => true
  | _ => false
  end.

(** [saveFlow] up to the gateway call; [saveFlow_then] and [saveFlow_catch]
    are its two continuations. *)
Definition saveFlow (f : flow) (silent : option bool) (w : world) : world :=
  call_gateway (EvUpdateFlowInDatabase f) (SaveFlowThen (truthy silent)) w.

Definition saveFlow_then (silent : bool) (updatedFlow : option flow) (w : world) : world :=
  match updatedFlow with
  | Some updatedFlow =>
      let w := if silent then w
               else emit (EvSetSuccessData "Changes saved successfully") w in
      setFlows
        (map (fun f => if String.eqb (flow_id f) (flow_id updatedFlow)
                       then updatedFlow else f)
             (flows w)) w
  | None => w
  end.

Definition saveFlow_catch (message : string) (w : world) : world :=
  emit (EvSetErrorData "Error while saving changes" [message]) w.

Definition autoSaveCurrentFlow (ns : list Node) (es : list Edge)
    (viewport : Viewport Number) (w : world) : world :=
  (* Clear the previous timeout if it exists. *)
  let w := match saveTimeoutId w with
           | Some t => clearTimeout t w
           | None => w
           end in
  (* Set up a new timeout. *)
  let '(t, w) := setTimeout (AutoSaveTimeout ns es viewport) 300 w in
  set_saveTimeoutId (Some t) w.

Definition with_data (f : flow) (d : FlowData Node Edge Number) : flow :=
  {| flow_id := flow_id f; flow_name := flow_name f;
     is_component := is_component f; data := Some d |}.

Definition with_id (f : flow) (i : string) : flow :=
  {| flow_id := i; flow_name := flow_name f;
     is_component := is_component f; data := data f |}.

Definition with_name (f : flow) (n : string) : flow :=
  {| flow_id := flow_id f; flow_name := n;
     is_component := is_component f; data := data f |}.

(** The closure [autoSaveCurrentFlow] hands to [setTimeout]. *)
Definition autoSave_timeout (ns : list Node) (es : list Edge)
    (viewport : Viewport Number) (w : world) : world :=
  match currentFlow w with
  | Some cf =>
      saveFlow (with_data cf {| data_nodes := ns; data_edges := es;
                                data_viewport := viewport |})
               (Some true) w
  | None => w
  end.

(** [removeFlow] up to the gateway call, and its continuation. *)
Definition removeFlow (i : string) (w : world) : world :=
  match List.find (fun f => String.eqb (flow_id f) i) (flows w) with
  | Some _ => call_gateway (EvDeleteFlowFromDatabase i) (RemoveFlowThen i) w
  | None => w
  end.

Definition publish_flows (fl : list flow) (w : world) : world :=
  let '(components, fl') := processFlows fl in
  emit (EvSetSavedComponents components) (set_isLoading false (setFlows fl' w)).

Definition removeFlow_then (i : string) (w : world) : world :=
  publish_flows (List.filter (fun f => negb (String.eqb (flow_id f) i)) (flows w)) w.

Definition deleteComponent (key : string) (w : world) : world :=
  match List.find (fun f => truthy (is_component f) && String.eqb (flow_name f) key)
                  (flows w) with
  | Some componentFlow => removeFlow (flow_id componentFlow) w
  | None => w
  end.

(** *** addFlow *)

(** [addFlow] up to its first [await].  Dereferencing an absent [flow] or an
    absent [data] throws, which rejects the promise of the async function. *)
Definition addFlow (newProject : bool) (f : option flow) (override : option bool)
    (pos : option (XYPosition Number)) (w : world)
    : world * Promise (option string) :=
  if newProject then
    let flowData :=
      match f with
      | Some f => processDataFromFlow f
      | None => Some {| data_nodes := []; data_edges := [];
                        data_viewport := {| zoom := number 1; view_x := number 0;
                                            view_y := number 0 |} |}
      end in
    if truthy override then
      match f with
      | Some fl =>
          let w := deleteComponent (flow_name fl) w in
          let newFlow := createNewFlow flowData f in
          (call_gateway (EvSaveFlowToDatabase newFlow) (AddFlowOverrideAwait newFlow) w,
           Pending)
      | None => (w, Rejected "TypeError")
      end
    else
      let newFlow := createNewFlow flowData f in
      let newName := addVersionToDuplicates newFlow (flows w) in
      let newFlow := with_name newFlow newName in
      (call_gateway (EvSaveFlowToDatabase newFlow) (AddFlowAwait newFlow) w, Pending)
  else
    match f with
    | Some fl =>
        match data fl with
        | Some d =>
            (paste {| nodes := data_nodes d; edges := data_edges d |}
                   (default {| pos_x := number 10; pos_y := number 10 |} pos) w,
             Resolved None)
        | None => (w, Rejected "TypeError")
        end
    | None => (w, Rejected "TypeError")
    end.

(** After [await saveFlowToDatabase(newFlow)] on the override path. *)
Definition addFlow_override_resume (newFlow : flow) (i : string) (w : world) : world :=
  snd (setTimeout (AddFlowTimeout (with_id newFlow i)) 200 w).

(** The closure the override path hands to [setTimeout]. *)
Definition addFlow_timeout (newFlow : flow) (w : world) : world :=
  publish_flows (newFlow :: flows w) w.

(** After [await saveFlowToDatabase(newFlow)] on the create path. *)
Definition addFlow_resume (newFlow : flow) (i : string) (w : world) : world :=
  publish_flows (with_id newFlow i :: flows w) w.

(** *** uploadFlow *)

(** The component check of [uploadFlow], on the parsed payload.  The flag of
    a [FileData] is absent or a boolean; [flag_conflict] is the same check on
    every value [JSON.parse] can deliver. *)
Definition component_conflict (fileData : FileData Node Edge Number) (isComponent : bool)
    : bool :=
  let file_is_component := is_component (file_flow fileData) in
  (negb (truthy file_is_component) && isComponent)
  || match file_is_component with
     | Some b => negb (Bool.eqb b isComponent)
     | None => false
     end.

Definition conflict_message : string :=
  "You cannot upload a component as a flow or vice versa".

(** What the awaiting executor of [uploadFlow] does with [addFlow]'s promise:
    a result is passed on, a rejection leaves the outer promise unsettled. *)
Definition awaited {A} (p : Promise A) : Promise A :=
  match p with
  | Resolved v => Resolved v
  | _ => Pending
  end.

(** [uploadFlow].  With a file, the executor from the point where
    [await file.text()] resumes: [w] is the store once the file has been
    read, and the promise is given as it is when this part has run.  Without
    a file, the call itself, which opens the dialog. *)
Definition uploadFlow (args : UploadFlowArgs Number File) (w : world)
    : world * Promise (option string) :=
  let isComponent := default false (isComponent args) in
  let pos := default {| pos_x := number 10; pos_y := number 10 |} (position args) in
  match file args with
  | Some f =>
      match parse f with
      | Some fileData =>
          if newProject args && component_conflict fileData isComponent then
            (w, Rejected conflict_message)
          else
            match file_flows fileData with
            | Some fl =>
                (foldl (fun w f => fst (addFlow (newProject args) (Some f) None (Some pos) w))
                       w fl,
                 Resolved (Some EmptyString))
            | None =>
                let '(w, p) := addFlow (newProject args) (Some (file_flow fileData)) None
                                       (Some pos) w in
                (w, awaited p)
            end
      | None => (w, Pending)
      end
  | None =>
      (* create a file input and open the file dialog *)
      (emit EvOpenFileDialog w, Pending)
  end.

(** The [onchange] handler of the file dialog [uploadFlow] opens, on the
    media type of the chosen file and its parsed payload. *)
Definition uploadFlow_onchange (args : UploadFlowArgs Number File) (type : string)
    (fileData : FileData Node Edge Number) (w : world)
    : world * Promise (option string) :=
  let isComponent := default false (isComponent args) in
  if String.eqb type "application/json" then
    if component_conflict fileData isComponent then (w, Rejected conflict_message)
    else
      let '(w, p) := addFlow (newProject args) (Some (file_flow fileData)) None None w in
      (w, awaited p)
  else (w, Pending).

(** *** History *)

(** [JSON.stringify(a) === JSON.stringify(b)], with [a] possibly undefined. *)
Definition same_json (a : option entry) (b : entry) : bool :=
  match a with
  | Some a => String.eqb (stringify a) (stringify b)
  | None => false
  end.

Definition takeSnapshot (w : world) : world :=
  let flowId := currentFlowId w in
  (* push the current graph to the past state *)
  let newState := {| nodes := cloneDeep (session_nodes w);
                     edges := cloneDeep (session_edges w) |} in
  let pastLength := length_or_0 (past w !! flowId) in
  if (0 <? pastLength)
     && same_json (index_or_null (past w !! flowId) (pastLength - 1)) newState
  then w
  else
    let past' :=
      if 0 <? pastLength then
        <[flowId := slice (default [] (past w !! flowId))
                          (pastLength - maxHistorySize defaultOptions + 1) pastLength
                    ++ [newState]]> (past w)
      else <[flowId := [newState]]> (past w) in
    set_history past' (<[flowId := []]> (future w)) w.

Definition undo (w : world) : world :=
  let newState_nodes := session_nodes w in
  let newState_edges := session_edges w in
  let flowId := currentFlowId w in
  let pastLength := length_or_0 (past w !! flowId) in
  match index_or_null (past w !! flowId) (pastLength - 1) with
  | Some pastState =>
      let past' := <[flowId := slice (default [] (past w !! flowId)) 0 (pastLength - 1)]>
                     (past w) in
      let future' := <[flowId := default [] (future w !! flowId)
                                 ++ [{| nodes := newState_nodes; edges := newState_edges |}]]>
                       (future w) in
      setEdges (edges pastState) (setNodes (nodes pastState) (set_history past' future' w))
  | None => w
  end.

Definition redo (w : world) : world :=
  let newState_nodes := session_nodes w in
  let newState_edges := session_edges w in
  let flowId := currentFlowId w in
  let futureLength := length_or_0 (future w !! flowId) in
  match index_or_null (future w !! flowId) (futureLength - 1) with
  | Some futureState =>
      let future' := <[flowId := slice (default [] (future w !! flowId)) 0 (futureLength - 1)]>
                       (future w) in
      let past' := <[flowId := default [] (past w !! flowId)
                               ++ [{| nodes := newState_nodes; edges := newState_edges |}]]>
                     (past w) in
      setEdges (edges futureState) (setNodes (nodes futureState) (set_history past' future' w))
  | None => w
  end.

(** *** The event loop *)

(** A gateway response reaches the continuation that waits for it. *)
Definition resume (k : Continuation Node Edge Number) (r : Response Node Edge Number)
    (w : world) : world :=
  match k, r with
  | SaveFlowThen silent, RespUpdated updatedFlow => saveFlow_then silent updatedFlow w
  | SaveFlowThen _, RespError message => saveFlow_catch message w
  | RemoveFlowThen i, RespDeleted => removeFlow_then i w
  | AddFlowOverrideAwait newFlow, RespCreated i => addFlow_override_resume newFlow i w
  | AddFlowAwait newFlow, RespCreated i => addFlow_resume newFlow i w
  | _, _ => w
  end.

Definition deliver (rid : positive) (r : Response Node Edge Number) (w : world) : world :=
  match List.find (fun q : request => Pos.eqb (request_id q) rid) (inflight w) with
  | Some q =>
      resume (request_continuation q) r
        (set_runtime (clock w) (nextId w) (timers w)
           (List.filter (fun q : request => negb (Pos.eqb (request_id q) rid)) (inflight w)) w)
  | None => w
  end.

(** A timer callback runs. *)
Definition fire (callback : TimerCallback Node Edge Number) (w : world) : world :=
  match callback with
  | AutoSaveTimeout ns es viewport => autoSave_timeout ns es viewport w
  | AddFlowTimeout newFlow => addFlow_timeout newFlow w
  end.

(** The pending timer that is due first; of two due at the same time, the
    one scheduled first. *)
Fixpoint earliest (ts : list timer) : option timer :=
  match ts with
  | [] => None
  | t :: ts =>
      match earliest ts with
      | Some t' => if timer_due t' <? timer_due t then Some t' else Some t
      | None => Some t
      end
  end.

Definition is_due (now : Z) (t : timer) : bool := timer_due t <=? now.

Fixpoint run_due (fuel : nat) (now : Z) (w : world) : world :=
  match fuel with
  | O => w
  | S fuel =>
      match earliest (List.filter (is_due now) (timers w)) with
      | Some t => run_due fuel now (fire (timer_callback t) (clearTimeout (timer_id t) w))
      | None => w
      end
  end.

(** [ms] milliseconds pass: every timer due by then fires, in order.  No
    callback of this store schedules a timer, so one round per pending timer
    is enough. *)
Definition advance (ms : Z) (w : world) : world :=
  let now := clock w + ms in
  run_due (length (timers w)) now
    (set_runtime now (nextId w) (timers w) (inflight w) w).

(** What can happen to the store: calls of its operations, edits of the live
    graph by the user, gateway responses, and the passing of time.
    [DoUploadFlow] is the moment an upload goes on after its file has been
    read, or opens the dialog when it has no file. *)
Inductive Action :=
| DoSetCurrentFlowId (i : string)
| DoSetFlows (fl : list flow)
| DoEdit (ns : list Node) (es : list Edge)
| DoTakeSnapshot
| DoUndo
| DoRedo
| DoAutoSave (ns : list Node) (es : list Edge) (viewport : Viewport Number)
| DoSaveFlow (f : flow) (silent : option bool)
| DoAddFlow (newProject : bool) (f : option flow) (override : option bool)
            (pos : option (XYPosition Number))
| DoRemoveFlow (i : string)
| DoDeleteComponent (key : string)
| DoUploadFlow (args : UploadFlowArgs Number File)
| DoDeliver (rid : positive) (r : Response Node Edge Number)
| DoAdvance (ms : Z).

Definition step (w : world) (a : Action) : world :=
  match a with
  | DoSetCurrentFlowId i => setCurrentFlowId i w
  | DoSetFlows fl => setFlows fl w
  | DoEdit ns es => set_session ns es w
  | DoTakeSnapshot => takeSnapshot w
  | DoUndo => undo w
  | DoRedo => redo w
  | DoAutoSave ns es viewport => autoSaveCurrentFlow ns es viewport w
  | DoSaveFlow f silent => saveFlow f silent w
  | DoAddFlow newProject f override pos => fst (addFlow newProject f override pos w)
  | DoRemoveFlow i => removeFlow i w
  | DoDeleteComponent key => deleteComponent key w
  | DoUploadFlow args => fst (uploadFlow args w)
  | DoDeliver rid r => deliver rid r w
  | DoAdvance ms => advance ms w
  end.

Definition run (w : world) (l : list Action) : world := foldl step w l.

(** The current document's stack in a history mapping; a stack that was
    never created is empty. *)
Definition stack (m : gmap string (list entry)) (i : string) : list entry :=
  default [] (m !! i).

(** A run of [takeSnapshot] calls, the live graph taking the given states
    between the calls. *)
Definition snapshots (w : world) (graphs : list (list Node * list Edge)) : world :=
  foldl (fun w g => takeSnapshot (set_session (fst g) (snd g) w)) w graphs.


(** The entry [takeSnapshot] would capture from the live graph. *)
Definition live (w : world) : entry :=
  {| nodes := session_nodes w; edges := session_edges w |}.

(** The deduplication check of [takeSnapshot]: the condition under which it
    returns at once. *)
Definition deduplicates (w : world) : bool :=
  let pastLength := length_or_0 (past w !! currentFlowId w) in
  (0 <? pastLength)
  && same_json (index_or_null (past w !! currentFlowId w) (pastLength - 1)) (live w).

(** How many entries the eviction slice of [takeSnapshot] drops from the
    front of a past stack of [n] entries: the start index of the slice,
    resolved the way [slice] resolves it. *)
Definition evicted (n : nat) : nat :=
  Z.to_nat (relative_index (Z.of_nat n) (Z.of_nat n - maxHistorySize defaultOptions + 1)).

(** A bound [b] that a push of [takeSnapshot] keeps: a stack of at most [b]
    entries has at most [b] entries after the eviction and the push. *)
Definition keeps (b : nat) : Prop :=
  forall n : nat, (n <= b)%nat -> (n - evicted n + 1 <= b)%nat.











(** *** Parts of the world, and what the operations keep *)

Definition registry_of (w : world) : string * list flow * option flow :=
  (currentFlowId w, flows w, currentFlow w).

Definition history_of (w : world)
    : gmap string (list entry) * gmap string (list entry) :=
  (past w, future w).

Definition session_of (w : world) : list Node * list Edge :=
  (session_nodes w, session_edges w).

Definition runtime_of (w : world)
    : option positive * Z * positive * list timer * list request :=
  (saveTimeoutId w, clock w, nextId w, timers w, inflight w).

(** The current document is the one [find] gives for the current id. *)
Definition coherent (w : world) : Prop :=
  currentFlow w = find_flow (currentFlowId w) (flows w).

(** Entries a document has in its two stacks together. *)
Definition history_size (w : world) (i : string) : nat :=
  (length (stack (past w) i) + length (stack (future w) i))%nat.

(** No two neighbours of a stack have the same JSON text. *)
Fixpoint no_repeat (l : list entry) : Prop :=
  match l with
  | a :: (b :: _) as rest => stringify a <> stringify b /\ no_repeat rest
  | _ => True
  end.

(** What [saveFlow]'s continuation puts in the place of each document. *)
Definition replace_by_id (updatedFlow : flow) (fl : list flow) : list flow :=
  map (fun f => if String.eqb (flow_id f) (flow_id updatedFlow) then updatedFlow else f) fl.

(** The documents the gateway was asked to create, in order. *)
Definition saved_creates (l : list (Event Node Edge Number SavedComponents)) : list flow :=
  omap (fun e => match e with EvSaveFlowToDatabase f => Some f | _ => None end) l.

(** The paste of a document's graph, when it has one. *)
Definition paste_of (pos : XYPosition Number) (f : flow)
    : option (Event Node Edge Number SavedComponents) :=
  match data f with
  | Some d => Some (EvPaste {| nodes := data_nodes d; edges := data_edges d |} pos)
  | None => None
  end.

(** The document [addFlow] sends to the gateway for [f] on the create path,
    its name resolved against the collection [fl]. *)
Definition created_for (fl : list flow) (f : option flow) : flow :=
  let flowData :=
    match f with
    | Some f => processDataFromFlow f
    | None => Some {| data_nodes := []; data_edges := [];
                      data_viewport := {| zoom := number 1; view_x := number 0;
                                          view_y := number 0 |} |}
    end in
  let newFlow := createNewFlow flowData f in
  with_name newFlow (addVersionToDuplicates newFlow fl).

(** What [JSON.parse] can leave in the [is_component] member of a payload:
    nothing (the member is missing), [null], a boolean, or a value of another
    type (a number, a string, an array, an object), of which the check reads
    the truthiness only. *)
Inductive JsonFlag :=
| FlagAbsent
| FlagNull
| FlagBool (b : bool)
| FlagOther (truthy_value : bool).

(** [!!x] *)
Definition flag_truthy (x : JsonFlag) : bool :=
  match x with
  | FlagBool b => b
  | FlagOther t => t
  | FlagAbsent | FlagNull => false
  end.

(** [x !== undefined] *)
Definition flag_defined (x : JsonFlag) : bool :=
  match x with
  | FlagAbsent => false
  | _ => true
  end.

(** [x !== isComponent], for a boolean [isComponent] *)
Definition flag_differs (x : JsonFlag) (isComponent : bool) : bool :=
  match x with
  | FlagBool b => negb (Bool.eqb b isComponent)
  | _ => true
  end.

(** The component check as the source writes it, on the raw value:
    [(!x && isComponent === true) || (x !== undefined && x !== isComponent)]. *)
Definition flag_conflict (x : JsonFlag) (isComponent : bool) : bool :=
  (negb (flag_truthy x) && Bool.eqb isComponent true)
  || (flag_defined x && flag_differs x isComponent).

(** The raw value behind the flag of a [FileData]. *)
Definition flag_of (o : option bool) : JsonFlag :=
  match o with
  | Some b => FlagBool b
  | None => FlagAbsent
  end.

(** What [uploadFlow] does with a parsed payload that passes the check. *)
Definition forwarded (args : UploadFlowArgs Number File)
    (fileData : FileData Node Edge Number) (w : world)
    : world * Promise (option string) :=
  let pos := default {| pos_x := number 10; pos_y := number 10 |} (position args) in
  match file_flows fileData with
  | Some fl =>
      (foldl (fun w f => (addFlow (newProject args) (Some f) None (Some pos) w).1) w fl,
       Resolved (Some EmptyString))
  | None =>
      let '(w, p) := addFlow (newProject args) (Some (file_flow fileData)) None
                             (Some pos) w in
      (w, awaited p)
  end.

(** An operation that touches only the history of the current document
    and, through its setters, the Graph Session. *)
Definition touches_only_current (op : world -> world) : Prop :=
  forall w,
    registry_of (op w) = registry_of w
    /\ runtime_of (op w) = runtime_of w
    /\ currentFlowId (op w) = currentFlowId w
    /\ (forall i, i <> currentFlowId w ->
                  stack (past (op w)) i = stack (past w) i
                  /\ stack (future (op w)) i = stack (future w) i)
    /\ (log (op w) = log w
        \/ exists ns es, log (op w) = log w ++ [EvSetNodes ns; EvSetEdges es]).

(** No document has more than fifty entries in its two stacks together. *)
Definition within_fifty (w : world) : Prop :=
  forall i, (history_size w i <= 50)%nat.

End Store.

(** ** A concrete store

    Nodes are numbered, an edge is a pair of node numbers, and entries are
    rendered the way [JSON.stringify] renders them. *)
Module Demo.

Abbreviation Flow := (FlowType nat (nat * nat) Z).

Definition quote : string := String "034"%char EmptyString.

Definition json_array (items : list string) : string :=
  "[" +:+ String.concat "," items +:+ "]".

Definition json_edge (e : nat * nat) : string :=
  json_array [pretty e.1; pretty e.2].

Definition json_entry (e : HistoryEntry nat (nat * nat)) : string :=
  "{" +:+ quote +:+ "nodes" +:+ quote +:+ ":" +:+ json_array (pretty <$> nodes e)
  +:+ "," +:+ quote +:+ "edges" +:+ quote +:+ ":" +:+ json_array (json_edge <$> edges e)
  +:+ "}".

Definition new_flow (d : option (FlowData nat (nat * nat) Z)) (f : option Flow) : Flow :=
  {| flow_id := EmptyString;
     flow_name := match f with Some f => flow_name f | None => "New Flow" end;
     is_component := Some (match f with Some f => truthy (is_component f) | None => false end);
     data := d |}.

Definition name_taken (n : string) (fl : list Flow) : bool :=
  existsb (fun f => String.eqb (flow_name f) n) fl.

Fixpoint first_free (fuel k : nat) (base : string) (fl : list Flow) : string :=
  let candidate := base +:+ " (" +:+ pretty k +:+ ")" in
  match fuel with
  | O => candidate
  | S fuel => if name_taken candidate fl then first_free fuel (S k) base fl else candidate
  end.

Definition versioned_name (f : Flow) (fl : list Flow) : string :=
  if name_taken (flow_name f) fl then first_free (length fl) 2 (flow_name f) fl
  else flow_name f.

#[global] Instance externals
    : Externals nat (nat * nat) Z (list Flow) (option (FileData nat (nat * nat) Z)) :=
  {| number := fun z => z;
     stringify := json_entry;
     parse := fun f => f;
     processDataFromFlow := data;
     createNewFlow := new_flow;
     addVersionToDuplicates := versioned_name;
     processFlows := fun fl => (List.filter (fun f => truthy (is_component f)) fl, fl);
     pasted := fun sel _ g => (g.1 ++ nodes sel, g.2 ++ edges sel) |}.

Abbreviation DemoWorld := (World nat (nat * nat) Z (list Flow)).

Definition doc : string := "flow-1".

(** The store with document [doc] open and nothing in its history. *)
Definition opened : DemoWorld := setCurrentFlowId doc initial.

(** Graph number [i]: the single node [i], no edge. *)
Definition graph (i : nat) : list nat * list (nat * nat) := ([i], []).

Definition graphs (n : nat) : list (list nat * list (nat * nat)) := graph <$> seq 1 n.

(** Fifty snapshots of fifty different graphs. *)
Definition fifty : DemoWorld := snapshots opened (graphs 50).

(** Two snapshots, an undo, the first graph drawn again, a redo and an
    undo: the latest past entry equals the live graph while an undone state
    waits in the future stack. *)
Definition redrawn : DemoWorld :=
  run initial
    [DoSetCurrentFlowId doc; DoEdit [1%nat] []; DoTakeSnapshot; DoEdit [2%nat] []; DoTakeSnapshot;
     DoEdit [3%nat] []; DoUndo; DoEdit [1%nat] []; DoRedo; DoUndo].

Definition component : Flow :=
  {| flow_id := "c-1"; flow_name := "Prompt"; is_component := Some true;
     data := Some {| data_nodes := [7%nat]; data_edges := [];
                     data_viewport := {| zoom := 1; view_x := 0; view_y := 0 |} |} |}.

(** The live graph edited once more after the fifty snapshots. *)
Definition fifty_edited : DemoWorld := set_session [51%nat] [] fifty.

(** A component file dropped on the canvas at (5,5) as a flow. *)
Definition dropped : UploadFlowArgs Z (option (FileData nat (nat * nat) Z)) :=
  {| newProject := false;
     file := Some (Some {| file_flow := component; file_flows := None |});
     isComponent := Some false;
     position := Some {| pos_x := 5; pos_y := 5 |} |}.

(** The same file imported as a new flow. *)
Definition imported : UploadFlowArgs Z (option (FileData nat (nat * nat) Z)) :=
  {| newProject := true;
     file := Some (Some {| file_flow := component; file_flows := None |});
     isComponent := Some false;
     position := None |}.

(** One snapshot taken of graph 1. *)
Definition snapped : DemoWorld := takeSnapshot (set_session [1%nat] [] opened).

(** A flow document with an empty graph, registered and open. *)
Definition sketch : Flow :=
  {| flow_id := doc; flow_name := "Sketch"; is_component := Some false;
     data := Some {| data_nodes := []; data_edges := [];
                     data_viewport := {| zoom := 1; view_x := 0; view_y := 0 |} |} |}.

Definition editing : DemoWorld := setCurrentFlowId doc (setFlows [sketch] initial).


(** A document that carries no graph payload. *)
Definition hollow : Flow :=
  {| flow_id := "h-1"; flow_name := "Hollow"; is_component := None; data := None |}.

(** Graph 2 drawn after the snapshot of graph 1, then undone. *)
Definition undone : DemoWorld := undo (set_session [2%nat] [] snapped).

(** The sketch as the gateway returns it after a save. *)
Definition sketch_saved : Flow :=
  {| flow_id := doc; flow_name := "Sketch, saved"; is_component := Some false;
     data := Some {| data_nodes := [1%nat]; data_edges := [];
                     data_viewport := {| zoom := 1; view_x := 0; view_y := 0 |} |} |}.

(** A collection with a component and a flow. *)
Definition library : DemoWorld := setFlows [component; sketch] initial.

(** A bundle of the component and the sketch, dropped on the canvas. *)
Definition bundle_dropped : UploadFlowArgs Z (option (FileData nat (nat * nat) Z)) :=
  {| newProject := false;
     file := Some (Some {| file_flow := sketch; file_flows := Some [component; sketch] |});
     isComponent := None;
     position := None |}.

(** A bundle of two sketches of the same name, imported while a sketch of
    that name is registered. *)
Definition bundle_imported : UploadFlowArgs Z (option (FileData nat (nat * nat) Z)) :=
  {| newProject := true;
     file := Some (Some {| file_flow := sketch; file_flows := Some [sketch; sketch] |});
     isComponent := None;
     position := None |}.

End Demo.

(** ** Properties *)

Section Properties.

Context {Node Edge Number SavedComponents File : Type}.
Context `{!Externals Node Edge Number SavedComponents File}.

Local Abbreviation entry := (HistoryEntry Node Edge).
Local Abbreviation world := (World Node Edge Number SavedComponents).

Implicit Types (w : world) (m : gmap string (list entry)) (e : entry).

(** *** Slices *)

Lemma relative_index_bounds (len i : Z) :
  0 <= len -> 0 <= relative_index len i <= len.
Proof. unfold relative_index. destruct (i <? 0) eqn:E; lia. Qed.

Lemma slice_init {A} (l : list A) :
  slice l 0 (Z.of_nat (length l) - 1) = take (length l - 1)%nat l.
Proof.
  unfold slice, relative_index. rewrite Z.ltb_irrefl.
  destruct (Z.ltb_spec (Z.of_nat (length l) - 1) 0) as [Hlt | Hge].
  - destruct l; simpl in *; [reflexivity | lia].
  - rewrite Z.min_l by lia. rewrite Z.min_l by lia. simpl (Z.to_nat 0).
    rewrite drop_0. f_equal. lia.
Qed.

Lemma slice_window {A} (l : list A) :
  slice l (Z.of_nat (length l) - maxHistorySize defaultOptions + 1) (Z.of_nat (length l))
  = drop (evicted (length l)) l.
Proof.
  unfold slice, evicted.
  set (len := Z.of_nat (length l)).
  set (k := relative_index len (len - maxHistorySize defaultOptions + 1)).
  assert (0 <= k <= len) as Hk by (apply relative_index_bounds; lia).
  assert (relative_index len len = len) as ->.
  { unfold relative_index. destruct (Z.ltb_spec len 0); lia. }
  apply take_ge. rewrite length_drop. lia.
Qed.

Lemma evicted_spec (n : nat) :
  evicted n = if (n <? 50)%nat then 0%nat
              else if (n <? 99)%nat then (2 * n - 99)%nat else (n - 99)%nat.
Proof.
  unfold evicted, relative_index. simpl (maxHistorySize defaultOptions).
  destruct (Nat.ltb_spec n 50); destruct (Nat.ltb_spec n 99);
    destruct (Z.ltb_spec (Z.of_nat n - 100 + 1) 0); lia.
Qed.

(** *** Reading a history mapping *)

Lemma length_or_0_stack m (i : string) :
  length_or_0 (m !! i) = Z.of_nat (length (stack m i)).
Proof. unfold stack. destruct (m !! i); reflexivity. Qed.

Lemma index_or_null_last m (i : string) :
  index_or_null (m !! i) (length_or_0 (m !! i) - 1) = last (stack m i).
Proof.
  rewrite length_or_0_stack. unfold stack, index_or_null.
  destruct (m !! i) as [l |]; simpl; [| reflexivity].
  rewrite last_lookup.
  destruct (Z.ltb_spec (Z.of_nat (length l) - 1) 0).
  - destruct l; simpl in *; [reflexivity | lia].
  - f_equal. lia.
Qed.

Lemma stack_insert m (i j : string) (l : list entry) :
  stack (<[i := l]> m) j = if decide (i = j) then l else stack m j.
Proof. unfold stack. rewrite lookup_insert. destruct (decide (i = j)); reflexivity. Qed.

Lemma stack_nonempty_lookup m (i : string) e :
  last (stack m i) = Some e -> m !! i = Some (stack m i).
Proof. unfold stack. destruct (m !! i); simpl; [reflexivity | discriminate]. Qed.

Lemma take_pred_last {A} (l : list A) (x : A) :
  last l = Some x -> take (length l - 1)%nat l ++ [x] = l.
Proof.
  intros Hl. rewrite last_lookup in Hl.
  replace (Init.Nat.pred (length l)) with (length l - 1)%nat in Hl by lia.
  rewrite <- (take_S_r _ _ _ Hl). apply take_ge.
  apply lookup_lt_Some in Hl. lia.
Qed.

(** *** takeSnapshot *)

Lemma deduplicates_last w :
  deduplicates w
  = (negb (length (stack (past w) (currentFlowId w)) =? 0)%nat
     && same_json (last (stack (past w) (currentFlowId w))) (live w)).
Proof.
  unfold deduplicates. rewrite index_or_null_last, length_or_0_stack.
  f_equal. destruct (stack (past w) (currentFlowId w)); reflexivity.
Qed.

Lemma takeSnapshot_dedup w : deduplicates w = true -> takeSnapshot w = w.
Proof. unfold deduplicates, takeSnapshot, live, cloneDeep. intros ->. reflexivity. Qed.

Lemma takeSnapshot_push w :
  deduplicates w = false ->
  takeSnapshot w
  = set_history
      (<[currentFlowId w :=
           drop (evicted (length (stack (past w) (currentFlowId w))))
                (stack (past w) (currentFlowId w)) ++ [live w]]> (past w))
      (<[currentFlowId w := []]> (future w)) w.
Proof.
  unfold deduplicates, takeSnapshot, live, cloneDeep. intros ->.
  rewrite length_or_0_stack. fold (stack (past w) (currentFlowId w)).
  destruct (Z.ltb_spec 0 (Z.of_nat (length (stack (past w) (currentFlowId w))))) as [Hpos | H0].
  - rewrite slice_window. reflexivity.
  - destruct (stack (past w) (currentFlowId w)); simpl in *; [reflexivity | lia].
Qed.

Lemma takeSnapshot_currentFlowId w : currentFlowId (takeSnapshot w) = currentFlowId w.
Proof.
  destruct (deduplicates w) eqn:E.
  - rewrite takeSnapshot_dedup by assumption. reflexivity.
  - rewrite takeSnapshot_push by assumption. reflexivity.
Qed.

Lemma takeSnapshot_session w :
  session_nodes (takeSnapshot w) = session_nodes w
  /\ session_edges (takeSnapshot w) = session_edges w.
Proof.
  destruct (deduplicates w) eqn:E.
  - rewrite takeSnapshot_dedup by assumption. split; reflexivity.
  - rewrite takeSnapshot_push by assumption. split; reflexivity.
Qed.

Lemma takeSnapshot_stack w :
  stack (past (takeSnapshot w)) (currentFlowId w)
  = if deduplicates w then stack (past w) (currentFlowId w)
    else drop (evicted (length (stack (past w) (currentFlowId w))))
              (stack (past w) (currentFlowId w)) ++ [live w].
Proof.
  destruct (deduplicates w) eqn:E.
  - rewrite takeSnapshot_dedup by assumption. reflexivity.
  - rewrite takeSnapshot_push by assumption. simpl.
    rewrite stack_insert. destruct (decide _); [reflexivity | congruence].
Qed.

Lemma takeSnapshot_nonempty w :
  exists e, last (stack (past (takeSnapshot w)) (currentFlowId w)) = Some e.
Proof.
  rewrite takeSnapshot_stack. destruct (deduplicates w) eqn:E.
  - rewrite deduplicates_last in E. apply andb_true_iff in E as [_ E].
    destruct (last _) as [e |]; [eauto | discriminate].
  - exists (live w). apply last_snoc.
Qed.

Lemma keeps_50 : keeps 50.
Proof.
  intros n Hn. rewrite evicted_spec.
  destruct (Nat.ltb_spec n 50); destruct (Nat.ltb_spec n 99); lia.
Qed.

Lemma keeps_100 : keeps 100.
Proof.
  intros n Hn. rewrite evicted_spec.
  destruct (Nat.ltb_spec n 50); destruct (Nat.ltb_spec n 99); lia.
Qed.

Lemma takeSnapshot_keeps (b : nat) w :
  keeps b ->
  (length (stack (past w) (currentFlowId w)) <= b)%nat ->
  (length (stack (past (takeSnapshot w)) (currentFlowId w)) <= b)%nat.
Proof.
  intros Hb Hw. rewrite takeSnapshot_stack. destruct (deduplicates w); [assumption |].
  rewrite length_app, length_drop. simpl. apply Hb. assumption.
Qed.

Lemma snapshots_currentFlowId w (gs : list (list Node * list Edge)) :
  currentFlowId (snapshots w gs) = currentFlowId w.
Proof.
  revert w. induction gs as [| g gs IH]; intros w; [reflexivity |].
  unfold snapshots in *. simpl. rewrite IH, takeSnapshot_currentFlowId. reflexivity.
Qed.

Lemma snapshots_keeps (b : nat) w (gs : list (list Node * list Edge)) :
  keeps b ->
  (length (stack (past w) (currentFlowId w)) <= b)%nat ->
  (length (stack (past (snapshots w gs)) (currentFlowId w)) <= b)%nat.
Proof.
  intros Hb. revert w. induction gs as [| g gs IH]; intros w Hw; [assumption |].
  unfold snapshots in *. simpl.
  specialize (IH (takeSnapshot (set_session g.1 g.2 w))).
  rewrite takeSnapshot_currentFlowId in IH. apply IH.
  apply (takeSnapshot_keeps b (set_session g.1 g.2 w) Hb). assumption.
Qed.

(** *** undo and redo *)

Lemma undo_some w e :
  last (stack (past w) (currentFlowId w)) = Some e ->
  undo w
  = setEdges (edges e) (setNodes (nodes e)
      (set_history
         (<[currentFlowId w := take (length (stack (past w) (currentFlowId w)) - 1)%nat
                                    (stack (past w) (currentFlowId w))]> (past w))
         (<[currentFlowId w := stack (future w) (currentFlowId w) ++ [live w]]> (future w))
         w)).
Proof.
  intros He. unfold undo. rewrite index_or_null_last, He, length_or_0_stack.
  fold (stack (past w) (currentFlowId w)). rewrite slice_init. reflexivity.
Qed.

Lemma redo_some w e :
  last (stack (future w) (currentFlowId w)) = Some e ->
  redo w
  = setEdges (edges e) (setNodes (nodes e)
      (set_history
         (<[currentFlowId w := stack (past w) (currentFlowId w) ++ [live w]]> (past w))
         (<[currentFlowId w := take (length (stack (future w) (currentFlowId w)) - 1)%nat
                                    (stack (future w) (currentFlowId w))]> (future w))
         w)).
Proof.
  intros He. unfold redo. rewrite index_or_null_last, He, length_or_0_stack.
  fold (stack (future w) (currentFlowId w)). rewrite slice_init. reflexivity.
Qed.

Lemma undo_none w : stack (past w) (currentFlowId w) = [] -> undo w = w.
Proof. intros Hs. unfold undo. rewrite index_or_null_last, Hs. reflexivity. Qed.

Lemma redo_none w : stack (future w) (currentFlowId w) = [] -> redo w = w.
Proof. intros Hs. unfold redo. rewrite index_or_null_last, Hs. reflexivity. Qed.

Lemma entry_eta e : {| nodes := nodes e; edges := edges e |} = e.
Proof. destruct e; reflexivity. Qed.

(** An undo that finds a past entry, then a redo: the live graph and the
    past mapping are back, and the future mapping holds the stack it held. *)
Lemma redo_undo w e :
  last (stack (past w) (currentFlowId w)) = Some e ->
  session_nodes (redo (undo w)) = session_nodes w
  /\ session_edges (redo (undo w)) = session_edges w
  /\ past (redo (undo w)) = past w
  /\ future (redo (undo w))
     = <[currentFlowId w := stack (future w) (currentFlowId w)]> (future w).
Proof.
  intros He. rewrite (undo_some w e He).
  set (P := stack (past w) (currentFlowId w)) in *.
  set (F := stack (future w) (currentFlowId w)).
  set (w2 := setEdges _ _).
  assert (stack (future w2) (currentFlowId w2) = F ++ [live w]) as HF.
  { subst w2. simpl. rewrite stack_insert. destruct (decide _); [reflexivity | congruence]. }
  assert (stack (past w2) (currentFlowId w2) = take (length P - 1)%nat P) as HP.
  { subst w2. simpl. rewrite stack_insert. destruct (decide _); [reflexivity | congruence]. }
  rewrite (redo_some w2 (live w)) by (rewrite HF; apply last_snoc).
  rewrite HF, HP. subst w2. simpl.
  repeat split.
  - rewrite insert_insert_eq. unfold live. simpl. rewrite entry_eta.
    rewrite (take_pred_last P e He). apply insert_id.
    apply (stack_nonempty_lookup _ _ e He).
  - rewrite insert_insert_eq. f_equal.
    rewrite length_app. simpl. apply take_app_length'. lia.
Qed.

(** *** Main results: the history *)

(** C2 (as amended): a [takeSnapshot] whose deduplication check does not
    fire leaves the current document's future stack empty; one whose check
    fires changes nothing, so the future stack stays as it was. *)
Theorem takeSnapshot_clears_future_unless_duplicate w :
  if deduplicates w then takeSnapshot w = w
  else future (takeSnapshot w) !! currentFlowId w = Some []
       /\ stack (future (takeSnapshot w)) (currentFlowId w) = [].
Proof.
  destruct (deduplicates w) eqn:E.
  - apply takeSnapshot_dedup, E.
  - rewrite (takeSnapshot_push w E). simpl. unfold stack.
    rewrite lookup_insert_eq. split; reflexivity.
Qed.

(** C3: along every run of [takeSnapshot] calls on one document that starts
    from an empty history, whatever the live graph is at each call, the past
    stack never holds more than [maxHistorySize] (100) entries. *)
Theorem past_within_maxHistorySize w (gs : list (list Node * list Edge)) :
  stack (past w) (currentFlowId w) = [] ->
  forall n : nat,
    Z.of_nat (length (stack (past (snapshots w (take n gs))) (currentFlowId w)))
    <= maxHistorySize defaultOptions.
Proof.
  intros Hw n.
  pose proof (snapshots_keeps 100 w (take n gs) keeps_100) as Hb.
  rewrite Hw in Hb. simpl in *. lia.
Qed.

(** C4: when the latest past entry of the current document is identical to
    the live graph, [takeSnapshot] changes nothing: no push, same past
    stack, same future stack.  So a second [takeSnapshot] right after a
    first, the graph unchanged, changes nothing. *)
Theorem takeSnapshot_duplicate_noop :
  (forall w, last (stack (past w) (currentFlowId w)) = Some (live w) -> takeSnapshot w = w)
  /\ (forall w, takeSnapshot (takeSnapshot w) = takeSnapshot w).
Proof.
  assert (forall w, last (stack (past w) (currentFlowId w)) = Some (live w) ->
                    takeSnapshot w = w) as Hnoop.
  { intros w Hl. apply takeSnapshot_dedup. rewrite deduplicates_last, Hl. simpl.
    rewrite String.eqb_refl, andb_true_r.
    destruct (stack (past w) (currentFlowId w)); [discriminate | reflexivity]. }
  split; [exact Hnoop |].
  intros w. destruct (deduplicates w) eqn:E.
  - rewrite (takeSnapshot_dedup w E). apply takeSnapshot_dedup, E.
  - apply Hnoop. rewrite takeSnapshot_currentFlowId.
    pose proof (takeSnapshot_stack w) as Hs. rewrite E in Hs. rewrite Hs.
    rewrite last_snoc. unfold live.
    destruct (takeSnapshot_session w) as [-> ->]. reflexivity.
Qed.

(** C5: [takeSnapshot], then [undo], then [redo], with no edit in between:
    the live graph is the graph the snapshot was taken of, and every
    document's past and future stacks are what they were right before the
    [undo]. *)
Theorem snapshot_undo_redo_restores w :
  session_nodes (redo (undo (takeSnapshot w))) = session_nodes w
  /\ session_edges (redo (undo (takeSnapshot w))) = session_edges w
  /\ (forall i, stack (past (redo (undo (takeSnapshot w)))) i
                = stack (past (takeSnapshot w)) i)
  /\ (forall i, stack (future (redo (undo (takeSnapshot w)))) i
                = stack (future (takeSnapshot w)) i).
Proof.
  destruct (takeSnapshot_nonempty w) as [e He].
  rewrite <- (takeSnapshot_currentFlowId w) in He.
  destruct (redo_undo (takeSnapshot w) e He) as (Hn & He' & Hp & Hf).
  destruct (takeSnapshot_session w) as [Hsn Hse].
  rewrite Hn, He', Hp, Hf, Hsn, Hse. repeat split.
  intros i. rewrite stack_insert. destruct (decide _); congruence.
Qed.

(** C6: [undo] with an empty (or never created) past stack for the current
    document changes nothing at all: no write to the Graph Session, no
    stack of any document touched.  Likewise [redo] with an empty future
    stack. *)
Theorem undo_redo_empty_noop :
  (forall w, stack (past w) (currentFlowId w) = [] -> undo w = w)
  /\ (forall w, stack (future w) (currentFlowId w) = [] -> redo w = w).
Proof. split; [exact undo_none | exact redo_none]. Qed.

(** C10: from an empty history, no run of [takeSnapshot] calls takes the
    past stack of the document beyond 50 entries.  The start index of the
    eviction slice is negative for every stack of fewer than 99 entries, so
    [slice] counts it from the end; with 50 entries stored a push drops the
    oldest one. *)
Theorem past_capped_at_fifty :
  (forall w (gs : list (list Node * list Edge)),
      stack (past w) (currentFlowId w) = [] ->
      forall n : nat,
        (length (stack (past (snapshots w (take n gs))) (currentFlowId w)) <= 50)%nat)
  /\ (forall pastLength : Z,
         0 < pastLength < 99 -> pastLength - maxHistorySize defaultOptions + 1 < 0)
  /\ (forall l : list entry,
         (0 < length l < 99)%nat ->
         slice l (Z.of_nat (length l) - maxHistorySize defaultOptions + 1)
               (Z.of_nat (length l))
         = drop (Z.to_nat (Z.max (Z.of_nat (length l)
                                  + (Z.of_nat (length l)
                                     - maxHistorySize defaultOptions + 1)) 0)) l)
  /\ (forall w,
         length (stack (past w) (currentFlowId w)) = 50%nat ->
         deduplicates w = false ->
         stack (past (takeSnapshot w)) (currentFlowId w)
         = drop 1 (stack (past w) (currentFlowId w)) ++ [live w]).
Proof.
  split; [| split; [| split]].
  - intros w gs Hw n.
    pose proof (snapshots_keeps 50 w (take n gs) keeps_50) as Hb.
    rewrite Hw in Hb. apply Hb. simpl. lia.
  - intros pastLength Hp. simpl. lia.
  - intros l Hl. rewrite slice_window. unfold evicted, relative_index.
    simpl (maxHistorySize defaultOptions).
    destruct (Z.ltb_spec (Z.of_nat (length l) - 100 + 1) 0); [reflexivity | lia].
  - intros w Hlen Hd. rewrite takeSnapshot_stack, Hd, Hlen. reflexivity.
Qed.

(** *** Timers *)

























(** *** The debounce *)












Lemma run_due_idle (fuel : nat) (now : Z) w :
  (forall t, t ∈ timers w -> now < timer_due t) -> run_due fuel now w = w.
Proof.
  intros Hlate. destruct fuel as [| fuel]; [reflexivity |]. simpl.
  assert (List.filter (is_due now) (timers w) = []) as ->; [| reflexivity].
  induction (timers w) as [| t ts IH]; [reflexivity |]. simpl.
  unfold is_due at 1. destruct (Z.leb_spec (timer_due t) now) as [Hle | _].
  - specialize (Hlate t ltac:(left)). lia.
  - apply IH. intros t' Ht'. apply Hlate. right. exact Ht'.
Qed.





(** Every timer due by the end of an [advance] has fired: one round per
    pending timer is enough. *)
Lemma earliest_elem (ts : list (Timer Node Edge Number)) (t : Timer Node Edge Number) :
  earliest ts = Some t -> In t ts.
Proof.
  revert t. induction ts as [| t0 ts IH]; intros t; simpl; [discriminate |].
  destruct (earliest ts) as [t' |].
  - destruct (timer_due t' <? timer_due t0); intros [= <-]; [right; apply IH |]; auto.
  - intros [= <-]. auto.
Qed.

Lemma earliest_none (ts : list (Timer Node Edge Number)) : earliest ts = None -> ts = [].
Proof.
  destruct ts as [| t0 ts]; [reflexivity |]. simpl.
  destruct (earliest ts) as [t' |]; [destruct (_ <? _) |]; discriminate.
Qed.

Lemma fire_timers (callback : TimerCallback Node Edge Number) w :
  timers (fire callback w) = timers w.
Proof.
  destruct callback; simpl.
  - unfold autoSave_timeout. destruct (currentFlow w); reflexivity.
  - unfold addFlow_timeout, publish_flows. destruct (processFlows _). reflexivity.
Qed.

Lemma due_count_clear (now : Z) (ts : list (Timer Node Edge Number))
    (t : Timer Node Edge Number) :
  In t (List.filter (is_due now) ts) ->
  (length (List.filter (is_due now) (filter (fun tm => timer_id tm ≠ timer_id t) ts))
   < length (List.filter (is_due now) ts))%nat.
Proof.
  assert (forall l : list (Timer Node Edge Number),
             (length (List.filter (is_due now) (filter (fun tm => timer_id tm ≠ timer_id t) l))
              <= length (List.filter (is_due now) l))%nat) as Hle.
  { induction l as [| x l IH]; [reflexivity |].
    rewrite filter_cons. simpl.
    destruct (decide (timer_id x ≠ timer_id t)); simpl; destruct (is_due now x); simpl; lia. }
  induction ts as [| x ts IH]; simpl; [tauto |].
  rewrite filter_cons. destruct (is_due now x) eqn:Ex; simpl.
  - intros [-> | Hin].
    + destruct (decide (timer_id t ≠ timer_id t)) as [Hne | _]; [congruence |].
      specialize (Hle ts). lia.
    + specialize (IH Hin).
      destruct (decide (timer_id x ≠ timer_id t)); simpl; [rewrite Ex; simpl |]; lia.
  - intros Hin. specialize (IH Hin).
    destruct (decide (timer_id x ≠ timer_id t)); simpl; [rewrite Ex |]; lia.
Qed.

Lemma run_due_complete (fuel : nat) (now : Z) w :
  (length (List.filter (is_due now) (timers w)) <= fuel)%nat ->
  List.filter (is_due now) (timers (run_due fuel now w)) = [].
Proof.
  revert w. induction fuel as [| fuel IH]; intros w Hfuel; simpl.
  - destruct (List.filter _ _); [reflexivity | simpl in Hfuel; lia].
  - destruct (earliest _) as [t |] eqn:Et; [| apply earliest_none, Et].
    apply IH. rewrite fire_timers. simpl.
    apply earliest_elem in Et. apply (due_count_clear now) in Et. lia.
Qed.

Lemma advance_complete (ms : Z) w (t : Timer Node Edge Number) :
  In t (timers (advance ms w)) -> clock w + ms < timer_due t.
Proof.
  intros Hin. unfold advance in Hin.
  pose proof (run_due_complete (length (timers w)) (clock w + ms)
                (set_runtime (clock w + ms) (nextId w) (timers w) (inflight w) w)) as Hnone.
  simpl in Hnone. specialize (Hnone (List.filter_length_le _ _)).
  destruct (Z.ltb_spec (clock w + ms) (timer_due t)) as [| Hdue]; [assumption |].
  assert (In t (List.filter (is_due (clock w + ms))
                  (timers (run_due (length (timers w)) (clock w + ms)
                     (set_runtime (clock w + ms) (nextId w) (timers w) (inflight w) w)))))
    as Hf.
  { apply List.filter_In. split; [exact Hin |]. unfold is_due. apply Z.leb_le. lia. }
  rewrite Hnone in Hf. destruct Hf.
Qed.

(** *** Saves made while time passes *)




Lemma sublist_singleton {A} (l : list A) (x : A) :
  l `sublist_of` [x] -> l = [] \/ l = [x].
Proof.
  intros Hs. inversion Hs as [| y l1 l2 Hs' | y l1 l2 Hs']; subst.
  - apply sublist_nil_r in Hs' as ->. right. reflexivity.
  - apply sublist_nil_r in Hs' as ->. left. reflexivity.
Qed.






(** *** Main results: the registry, the autosave and the import *)

(** C7 (as amended): [addFlow] with [newProject] false makes no gateway
    call and leaves the flow collection and the current document as they
    are, whatever the source document.  When the source has a graph payload
    the Graph Session's [paste] is called once, with the nodes and edges of
    the source, at the given position or at (10, 10) when none is given, and
    the promise resolves to [undefined].  When there is no source or the
    source has no graph payload, reading [flow.data.nodes] throws: nothing
    is pasted and the promise rejects. *)
Theorem addFlow_paste_only w (source : option (FlowType Node Edge Number))
    (override : option bool) (pos : option (XYPosition Number)) :
  (addFlow false source override pos w).2
  = match source ≫= data with
    | Some _ => Resolved None
    | None => Rejected "TypeError"
    end
  /\ log (addFlow false source override pos w).1
     = log w
       ++ match source ≫= data with
          | Some d =>
              [EvPaste {| nodes := data_nodes d; edges := data_edges d |}
                       (default {| pos_x := number 10; pos_y := number 10 |} pos)]
          | None => []
          end
  /\ flows (addFlow false source override pos w).1 = flows w
  /\ currentFlowId (addFlow false source override pos w).1 = currentFlowId w
  /\ currentFlow (addFlow false source override pos w).1 = currentFlow w
  /\ inflight (addFlow false source override pos w).1 = inflight w
  /\ timers (addFlow false source override pos w).1 = timers w.
Proof.
  unfold addFlow. destruct source as [fl |]; simpl; [destruct (data fl) as [d |] |].
  - unfold paste. destruct (pasted _ _ _). simpl. repeat split.
  - simpl. rewrite app_nil_r. repeat split.
  - rewrite app_nil_r. repeat split.
Qed.


(** C9 (as amended): [uploadFlow] with [newProject] true and a supplied file
    whose parsed payload carries an [is_component] flag different from the
    requested [isComponent] rejects with the message of [conflict_message]
    and changes nothing: no [addFlow], no gateway call, the same flow
    collection. *)
Theorem uploadFlow_conflict_rejected (args : UploadFlowArgs Number File) (f : File)
    (fileData : FileData Node Edge Number) (b : bool) w :
  newProject args = true ->
  file args = Some f ->
  parse f = Some fileData ->
  is_component (file_flow fileData) = Some b ->
  b <> default false (isComponent args) ->
  uploadFlow args w = (w, Rejected conflict_message).
Proof.
  intros Hnew Hfile Hparse Hflag Hne. unfold uploadFlow.
  rewrite Hfile, Hparse, Hnew. unfold component_conflict. rewrite Hflag.
  destruct b, (default false (isComponent args)); simpl; congruence.
Qed.

End Properties.

(** ** The store at work *)

(** C1 (the code departs from it): after fifty snapshots of fifty different
    graphs the past stack of the document holds 50 entries, fewer than
    [maxHistorySize].  A further [takeSnapshot] of a new graph is not
    deduplicated, and yet the stack still holds 50 entries, not 51: the
    oldest entry, graph 1, is gone and graph 2 is now the oldest. *)
Theorem takeSnapshot_evicts_at_fifty :
  Z.of_nat (length (stack (past Demo.fifty_edited) Demo.doc))
  < maxHistorySize defaultOptions
  /\ length (stack (past Demo.fifty_edited) Demo.doc) = 50%nat
  /\ deduplicates Demo.fifty_edited = false
  /\ length (stack (past (takeSnapshot Demo.fifty_edited)) Demo.doc) = 50%nat
  /\ head (stack (past Demo.fifty_edited) Demo.doc)
     = Some {| nodes := [1%nat]; edges := [] |}
  /\ head (stack (past (takeSnapshot Demo.fifty_edited)) Demo.doc)
     = Some {| nodes := [2%nat]; edges := [] |}.
Proof. vm_compute. repeat split. Qed.

(** Below fifty entries a push keeps every entry and adds one. *)
Lemma takeSnapshot_keeps_all_below_fifty {Node Edge Number SavedComponents File : Type}
    `{!Externals Node Edge Number SavedComponents File}
    (w : World Node Edge Number SavedComponents) :
  (length (stack (past w) (currentFlowId w)) < 50)%nat ->
  deduplicates w = false ->
  stack (past (takeSnapshot w)) (currentFlowId w)
  = stack (past w) (currentFlowId w) ++ [live w].
Proof.
  intros Hlen Hd. rewrite takeSnapshot_stack, Hd, evicted_spec.
  destruct (Nat.ltb_spec (length (stack (past w) (currentFlowId w))) 50); [reflexivity | lia].
Qed.

(** The bound of fifty is reached. *)
Example fifty_entries : length (stack (past Demo.fifty) Demo.doc) = 50%nat.
Proof. vm_compute. reflexivity. Qed.

(** C2 fails as stated: [Demo.redrawn] is reached by snapshots, edits, an
    undo, a redo and an undo; a [takeSnapshot] there is deduplicated and
    the future stack of the document is not empty afterwards. *)
Lemma duplicate_snapshot_keeps_future :
  deduplicates Demo.redrawn = true
  /\ stack (future (takeSnapshot Demo.redrawn)) (currentFlowId Demo.redrawn)
     = [{| nodes := [3%nat]; edges := [] |}]
  /\ stack (future (takeSnapshot Demo.redrawn)) (currentFlowId Demo.redrawn) <> [].
Proof. vm_compute. repeat split. discriminate. Qed.

(** A hundred and twenty snapshots of as many graphs, from an empty history. *)
Lemma past_within_maxHistorySize_witness :
  stack (past Demo.opened) (currentFlowId Demo.opened) = []
  /\ Z.of_nat (length (stack (past (snapshots Demo.opened (take 120 (Demo.graphs 120))))
                             (currentFlowId Demo.opened)))
     <= maxHistorySize defaultOptions.
Proof.
  split; [reflexivity |].
  apply (past_within_maxHistorySize Demo.opened (Demo.graphs 120)). reflexivity.
Defined.

(** A second snapshot of graph 1 right after the first. *)
Lemma takeSnapshot_duplicate_noop_witness :
  last (stack (past Demo.snapped) (currentFlowId Demo.snapped)) = Some (live Demo.snapped)
  /\ takeSnapshot Demo.snapped = Demo.snapped.
Proof.
  split; [reflexivity |].
  apply (proj1 takeSnapshot_duplicate_noop Demo.snapped). reflexivity.
Defined.

(** [undo] and [redo] on a document with no history. *)
Lemma undo_redo_empty_noop_witness :
  stack (past Demo.opened) (currentFlowId Demo.opened) = []
  /\ stack (future Demo.opened) (currentFlowId Demo.opened) = []
  /\ undo Demo.opened = Demo.opened
  /\ redo Demo.opened = Demo.opened.
Proof.
  split; [reflexivity |]. split; [reflexivity |]. split.
  - apply (proj1 undo_redo_empty_noop Demo.opened). reflexivity.
  - apply (proj2 undo_redo_empty_noop Demo.opened). reflexivity.
Defined.

(** A hundred and twenty snapshots stay within fifty entries; the push that
    follows the fiftieth drops graph 1. *)
Lemma past_capped_at_fifty_witness :
  (length (stack (past (snapshots Demo.opened (take 120 (Demo.graphs 120))))
                 (currentFlowId Demo.opened)) <= 50)%nat
  /\ 50 - maxHistorySize defaultOptions + 1 < 0
  /\ slice (stack (past Demo.fifty) Demo.doc) (50 - maxHistorySize defaultOptions + 1) 50
     = drop 1 (stack (past Demo.fifty) Demo.doc)
  /\ stack (past (takeSnapshot Demo.fifty_edited)) (currentFlowId Demo.fifty_edited)
     = drop 1 (stack (past Demo.fifty_edited) (currentFlowId Demo.fifty_edited))
       ++ [live Demo.fifty_edited].
Proof.
  destruct (@past_capped_at_fifty _ _ _ _ _ Demo.externals)
    as (Hcap & Hneg & Hslice & Hevict).
  split; [| split; [| split]].
  - apply (Hcap Demo.opened (Demo.graphs 120)). reflexivity.
  - apply Hneg. lia.
  - apply (Hslice (stack (past Demo.fifty) Demo.doc)). vm_compute. lia.
  - apply Hevict; vm_compute; reflexivity.
Defined.

(** A component pasted at (5, 5). *)
Lemma addFlow_paste_only_witness :
  (addFlow false (Some Demo.component) None (Some {| pos_x := 5; pos_y := 5 |})
           Demo.opened).2 = Resolved None
  /\ log (addFlow false (Some Demo.component) None (Some {| pos_x := 5; pos_y := 5 |})
                  Demo.opened).1
     = [EvPaste {| nodes := [7%nat]; edges := [] |} {| pos_x := 5; pos_y := 5 |}].
Proof.
  destruct (addFlow_paste_only Demo.opened (Some Demo.component)
              None (Some {| pos_x := 5; pos_y := 5 |}))
    as (Hres & Hlog & _).
  split; [exact Hres | exact Hlog].
Defined.

(** C7 fails as stated: a source document without a graph payload is not
    pasted; the call rejects and the Graph Session is not called. *)
Lemma addFlow_without_data_rejects :
  data Demo.hollow = None
  /\ addFlow false (Some Demo.hollow) None (Some {| pos_x := 5; pos_y := 5 |}) Demo.opened
     = (Demo.opened, Rejected "TypeError")
  /\ log (addFlow false (Some Demo.hollow) None (Some {| pos_x := 5; pos_y := 5 |})
                  Demo.opened).1 = []
  /\ (addFlow false (Some Demo.hollow) None (Some {| pos_x := 5; pos_y := 5 |})
               Demo.opened).2 <> Resolved None.
Proof. vm_compute. repeat split. discriminate. Qed.


(** C9 fails as stated: a component file dropped on the canvas
    ([newProject] false) with [isComponent] false is not rejected; it goes
    to [addFlow], which pastes it into the Graph Session. *)
Lemma uploadFlow_conflict_pasted :
  is_component Demo.component = Some true
  /\ isComponent Demo.dropped = Some false
  /\ (uploadFlow Demo.dropped Demo.opened).2 = Resolved None
  /\ log (uploadFlow Demo.dropped Demo.opened).1
     = [EvPaste {| nodes := [7%nat]; edges := [] |} {| pos_x := 5; pos_y := 5 |}]
  /\ session_nodes (uploadFlow Demo.dropped Demo.opened).1 = [7%nat]
  /\ uploadFlow Demo.dropped Demo.opened <> (Demo.opened, Rejected conflict_message).
Proof. vm_compute. repeat split. discriminate. Qed.

(** The component file imported as a new flow is rejected. *)
Lemma uploadFlow_conflict_rejected_witness :
  uploadFlow Demo.imported Demo.opened = (Demo.opened, Rejected conflict_message).
Proof.
  apply (uploadFlow_conflict_rejected Demo.imported
           (Some {| file_flow := Demo.component; file_flows := None |})
           {| file_flow := Demo.component; file_flows := None |} true Demo.opened);
    [reflexivity | reflexivity | reflexivity | reflexivity | discriminate].
Defined.

(** ** More of the store *)

Section Further.

Context {Node Edge Number SavedComponents File : Type}.
Context `{!Externals Node Edge Number SavedComponents File}.

Local Abbreviation flow := (FlowType Node Edge Number).
Local Abbreviation entry := (HistoryEntry Node Edge).
Local Abbreviation world := (World Node Edge Number SavedComponents).

Implicit Types (w : world) (m : gmap string (list entry)) (e : entry).

(** *** What each operation leaves alone *)

Local Ltac unfold_ops :=
  repeat progress
    (unfold history_of, registry_of, session_of, runtime_of,
       fire, resume, addFlow, deleteComponent, removeFlow, saveFlow_then, saveFlow_catch,
       removeFlow_then, addFlow_resume, addFlow_override_resume, addFlow_timeout,
       autoSave_timeout, saveFlow, publish_flows, call_gateway, paste,
       setCurrentFlowId, setFlows, autoSaveCurrentFlow, setTimeout, clearTimeout,
       setNodes, setEdges;
     cbn beta iota).

Local Ltac split_cases :=
  repeat match goal with
         | |- context [match ?x with _ => _ end] => destruct x
         end.

Local Ltac frame := unfold_ops; split_cases; reflexivity.

Lemma history_addFlow (np : bool) (f : option flow) (override : option bool)
    (pos : option (XYPosition Number)) w :
  history_of (addFlow np f override pos w).1 = history_of w.
Proof. frame. Qed.

Lemma registry_addFlow (np : bool) (f : option flow) (override : option bool)
    (pos : option (XYPosition Number)) w :
  registry_of (addFlow np f override pos w).1 = registry_of w.
Proof. frame. Qed.

Lemma frames_fold_addFlow {P : Type} (part : world -> P) (np : bool)
    (pos : option (XYPosition Number)) (fl : list flow) w :
  (forall f w, part (addFlow np (Some f) None pos w).1 = part w) ->
  part (foldl (fun w f => (addFlow np (Some f) None pos w).1) w fl) = part w.
Proof.
  intros Hstep. revert w. induction fl as [| f fl IH]; intros w; [reflexivity |].
  simpl. rewrite IH. apply Hstep.
Qed.

Lemma history_uploadFlow (args : UploadFlowArgs Number File) w :
  history_of (uploadFlow args w).1 = history_of w.
Proof.
  unfold uploadFlow. destruct (file args) as [f |]; [| reflexivity].
  destruct (parse f) as [fileData |]; [| reflexivity].
  destruct (_ && _); [reflexivity |].
  destruct (file_flows fileData) as [fl |].
  - simpl. apply (frames_fold_addFlow history_of). intros; apply history_addFlow.
  - pose proof (history_addFlow (newProject args) (Some (file_flow fileData)) None
                  (Some (default {| pos_x := number 10; pos_y := number 10 |} (position args)))
                  w) as Hh.
    destruct (addFlow _ _ _ _ w). exact Hh.
Qed.

Lemma registry_uploadFlow (args : UploadFlowArgs Number File) w :
  registry_of (uploadFlow args w).1 = registry_of w.
Proof.
  unfold uploadFlow. destruct (file args) as [f |]; [| reflexivity].
  destruct (parse f) as [fileData |]; [| reflexivity].
  destruct (_ && _); [reflexivity |].
  destruct (file_flows fileData) as [fl |].
  - simpl. apply (frames_fold_addFlow registry_of). intros; apply registry_addFlow.
  - pose proof (registry_addFlow (newProject args) (Some (file_flow fileData)) None
                  (Some (default {| pos_x := number 10; pos_y := number 10 |} (position args)))
                  w) as Hh.
    destruct (addFlow _ _ _ _ w). exact Hh.
Qed.

Lemma history_resume (k : Continuation Node Edge Number) (r : Response Node Edge Number) w :
  history_of (resume k r w) = history_of w.
Proof. destruct k, r; frame. Qed.

Lemma history_deliver (rid : positive) (r : Response Node Edge Number) w :
  history_of (deliver rid r w) = history_of w.
Proof.
  unfold deliver. destruct (List.find _ _); [| reflexivity].
  rewrite history_resume. reflexivity.
Qed.

Lemma history_fire (callback : TimerCallback Node Edge Number) w :
  history_of (fire callback w) = history_of w.
Proof. destruct callback; frame. Qed.

Lemma history_run_due (fuel : nat) (now : Z) w :
  history_of (run_due fuel now w) = history_of w.
Proof.
  revert w. induction fuel as [| fuel IH]; intros w; simpl; [reflexivity |].
  destruct (earliest _) as [t |]; [| reflexivity].
  rewrite IH, history_fire. reflexivity.
Qed.

Lemma history_advance (ms : Z) w : history_of (advance ms w) = history_of w.
Proof. unfold advance. rewrite history_run_due. reflexivity. Qed.

(** Every step but a history operation leaves both history mappings as
    they are. *)
Lemma history_step w (a : Action) :
  a <> DoTakeSnapshot -> a <> DoUndo -> a <> DoRedo ->
  history_of (step w a) = history_of w.
Proof.
  intros Hs Hu Hr. destruct a; simpl; try congruence.
  - frame.
  - frame.
  - reflexivity.
  - frame.
  - frame.
  - apply history_addFlow.
  - frame.
  - frame.
  - apply history_uploadFlow.
  - apply history_deliver.
  - apply history_advance.
Qed.

Lemma history_size_frame w w' (i : string) :
  history_of w' = history_of w -> history_size w' i = history_size w i.
Proof. unfold history_of, history_size. intros [= -> ->]. reflexivity. Qed.

(** *** undo and redo, one step *)

Lemma last_nonempty_length {A} (l : list A) (x : A) :
  last l = Some x -> (1 <= length l)%nat.
Proof. destruct l; [discriminate | simpl; lia]. Qed.

Lemma undo_moves_one w e :
  last (stack (past w) (currentFlowId w)) = Some e ->
  stack (past (undo w)) (currentFlowId w) ++ [e] = stack (past w) (currentFlowId w)
  /\ stack (future (undo w)) (currentFlowId w)
     = stack (future w) (currentFlowId w) ++ [live w]
  /\ live (undo w) = e
  /\ history_size (undo w) (currentFlowId w) = history_size w (currentFlowId w).
Proof.
  intros He. rewrite (undo_some w e He). unfold history_size, live. simpl.
  rewrite !stack_insert. destruct (decide _) as [_ | Hne]; [| congruence].
  pose proof (last_nonempty_length _ _ He) as Hlen.
  repeat split.
  - apply take_pred_last, He.
  - apply entry_eta.
  - rewrite length_take, length_app. simpl. lia.
Qed.

Lemma redo_moves_one w e :
  last (stack (future w) (currentFlowId w)) = Some e ->
  stack (future (redo w)) (currentFlowId w) ++ [e] = stack (future w) (currentFlowId w)
  /\ stack (past (redo w)) (currentFlowId w)
     = stack (past w) (currentFlowId w) ++ [live w]
  /\ live (redo w) = e
  /\ history_size (redo w) (currentFlowId w) = history_size w (currentFlowId w).
Proof.
  intros He. rewrite (redo_some w e He). unfold history_size, live. simpl.
  rewrite !stack_insert. destruct (decide _) as [_ | Hne]; [| congruence].
  pose proof (last_nonempty_length _ _ He) as Hlen.
  repeat split.
  - apply take_pred_last, He.
  - apply entry_eta.
  - rewrite length_take, length_app. simpl. lia.
Qed.

(** X1: an [undo] that finds a past entry takes it off the past stack of the
    current document, makes it the live graph, and puts the graph that was
    live on top of the future stack; a [redo] that finds a future entry does
    the same the other way round.  The entries of the document are as many
    as before. *)
Theorem undo_redo_move_one :
  (forall w e,
      last (stack (past w) (currentFlowId w)) = Some e ->
      stack (past (undo w)) (currentFlowId w) ++ [e] = stack (past w) (currentFlowId w)
      /\ stack (future (undo w)) (currentFlowId w)
         = stack (future w) (currentFlowId w) ++ [live w]
      /\ live (undo w) = e
      /\ history_size (undo w) (currentFlowId w) = history_size w (currentFlowId w))
  /\ (forall w e,
         last (stack (future w) (currentFlowId w)) = Some e ->
         stack (future (redo w)) (currentFlowId w) ++ [e]
         = stack (future w) (currentFlowId w)
         /\ stack (past (redo w)) (currentFlowId w)
            = stack (past w) (currentFlowId w) ++ [live w]
         /\ live (redo w) = e
         /\ history_size (redo w) (currentFlowId w) = history_size w (currentFlowId w)).
Proof. split; [exact undo_moves_one | exact redo_moves_one]. Qed.

(** A redo that finds a future entry, then an undo: the mirror image of
    [redo_undo]. *)
Lemma undo_redo w e :
  last (stack (future w) (currentFlowId w)) = Some e ->
  session_nodes (undo (redo w)) = session_nodes w
  /\ session_edges (undo (redo w)) = session_edges w
  /\ future (undo (redo w)) = future w
  /\ past (undo (redo w))
     = <[currentFlowId w := stack (past w) (currentFlowId w)]> (past w).
Proof.
  intros He. rewrite (redo_some w e He).
  set (P := stack (past w) (currentFlowId w)).
  set (F := stack (future w) (currentFlowId w)) in *.
  set (w2 := setEdges _ _).
  assert (stack (past w2) (currentFlowId w2) = P ++ [live w]) as HP.
  { subst w2. simpl. rewrite stack_insert. destruct (decide _); [reflexivity | congruence]. }
  assert (stack (future w2) (currentFlowId w2) = take (length F - 1)%nat F) as HF.
  { subst w2. simpl. rewrite stack_insert. destruct (decide _); [reflexivity | congruence]. }
  rewrite (undo_some w2 (live w)) by (rewrite HP; apply last_snoc).
  rewrite HF, HP. subst w2. simpl.
  repeat split.
  - rewrite insert_insert_eq. unfold live. simpl. rewrite entry_eta.
    rewrite (take_pred_last F e He). apply insert_id.
    apply (stack_nonempty_lookup _ _ e He).
  - rewrite insert_insert_eq. f_equal.
    rewrite length_app. simpl. apply take_app_length'. lia.
Qed.

Lemma stack_insert_self m (i j : string) :
  stack (<[i := stack m i]> m) j = stack m j.
Proof. rewrite stack_insert. destruct (decide (i = j)); congruence. Qed.

(** X2: an [undo] that finds a past entry followed by a [redo], and a
    [redo] that finds a future entry followed by an [undo], both bring back
    the live graph and every stack of every document. *)
Theorem undo_redo_round_trips :
  (forall w e,
      last (stack (past w) (currentFlowId w)) = Some e ->
      live (redo (undo w)) = live w
      /\ forall i, stack (past (redo (undo w))) i = stack (past w) i
                   /\ stack (future (redo (undo w))) i = stack (future w) i)
  /\ (forall w e,
         last (stack (future w) (currentFlowId w)) = Some e ->
         live (undo (redo w)) = live w
         /\ forall i, stack (past (undo (redo w))) i = stack (past w) i
                      /\ stack (future (undo (redo w))) i = stack (future w) i).
Proof.
  split; intros w e He.
  - destruct (redo_undo w e He) as (Hn & Hs & Hp & Hf).
    unfold live. rewrite Hn, Hs, Hp, Hf. split; [reflexivity |].
    intros i. split; [reflexivity | apply stack_insert_self].
  - destruct (undo_redo w e He) as (Hn & Hs & Hf & Hp).
    unfold live. rewrite Hn, Hs, Hp, Hf. split; [reflexivity |].
    intros i. split; [apply stack_insert_self | reflexivity].
Qed.

(** *** Snapshots and what follows them *)

Lemma takeSnapshot_top w :
  exists e, last (stack (past (takeSnapshot w)) (currentFlowId w)) = Some e
            /\ stringify e = stringify (live w)
            /\ (deduplicates w = false -> e = live w).
Proof.
  rewrite takeSnapshot_stack. destruct (deduplicates w) eqn:E.
  - rewrite deduplicates_last in E. apply andb_true_iff in E as [_ E].
    destruct (last _) as [e |]; [| discriminate].
    exists e. simpl in E. apply String.eqb_eq in E.
    split; [reflexivity | split; [exact E | discriminate]].
  - exists (live w). rewrite last_snoc. repeat split.
Qed.

(** X3: a snapshot, any edit of the live graph, then an [undo]: the live
    graph has the JSON text it had when the snapshot was taken (and is that
    very graph when the snapshot was pushed), and the edited graph is on top
    of the future stack. *)
Theorem undo_returns_to_snapshot w (ns : list Node) (es : list Edge) :
  stringify (live (undo (set_session ns es (takeSnapshot w)))) = stringify (live w)
  /\ (deduplicates w = false ->
      live (undo (set_session ns es (takeSnapshot w))) = live w)
  /\ last (stack (future (undo (set_session ns es (takeSnapshot w)))) (currentFlowId w))
     = Some {| nodes := ns; edges := es |}.
Proof.
  destruct (takeSnapshot_top w) as (e & Hlast & Hjson & Heq).
  set (w1 := set_session ns es (takeSnapshot w)).
  assert (currentFlowId w1 = currentFlowId w) as Hcur
      by (subst w1; simpl; apply takeSnapshot_currentFlowId).
  assert (last (stack (past w1) (currentFlowId w1)) = Some e) as Hlast1
      by (rewrite Hcur; exact Hlast).
  destruct (undo_moves_one w1 e Hlast1) as (_ & Hfut & Hlive & _).
  rewrite Hcur in Hfut. rewrite Hlive, Hfut, last_snoc.
  repeat split; assumption.
Qed.

(** X4: a [takeSnapshot] that pushes leaves nothing to redo: a [redo] right
    after it changes nothing. *)
Theorem redo_after_snapshot_noop w :
  deduplicates w = false -> redo (takeSnapshot w) = takeSnapshot w.
Proof.
  intros Hd. apply redo_none. rewrite takeSnapshot_currentFlowId.
  rewrite (takeSnapshot_push w Hd). simpl. unfold stack.
  rewrite lookup_insert_eq. reflexivity.
Qed.

(** *** The history as a whole *)

Lemma stack_insert_ne m (i j : string) (l : list entry) :
  j <> i -> stack (<[i := l]> m) j = stack m j.
Proof. intros Hne. rewrite stack_insert. destruct (decide (i = j)); congruence. Qed.

(** X5: [takeSnapshot], [undo] and [redo] touch the stacks of the current
    document only.  The registry, [saveTimeoutId], the timers and the
    gateway requests stay as they are, and the only calls made are the two
    setters of the Graph Session ([undo] and [redo], when they find an
    entry); [takeSnapshot] makes no call and leaves the live graph alone. *)
Theorem history_operations_frame :
  touches_only_current takeSnapshot
  /\ touches_only_current (undo : world -> world)
  /\ touches_only_current (redo : world -> world)
  /\ (forall w, log (takeSnapshot w) = log w /\ session_of (takeSnapshot w) = session_of w).
Proof.
  assert (forall w, log (takeSnapshot w) = log w
                    /\ session_of (takeSnapshot w) = session_of w) as Hsnap.
  { intros w. destruct (deduplicates w) eqn:E.
    - rewrite (takeSnapshot_dedup w E). split; reflexivity.
    - rewrite (takeSnapshot_push w E). split; reflexivity. }
  split; [| split; [| split; [| exact Hsnap]]]; intros w.
  - destruct (deduplicates w) eqn:E.
    + rewrite (takeSnapshot_dedup w E). repeat split. left. reflexivity.
    + rewrite (takeSnapshot_push w E). simpl.
      split; [reflexivity |]. split; [reflexivity |]. split; [reflexivity |].
      split; [| left; reflexivity].
      intros i Hi. rewrite !stack_insert_ne by exact Hi. split; reflexivity.
  - destruct (last (stack (past w) (currentFlowId w))) as [e |] eqn:El.
    + rewrite (undo_some w e El). simpl.
      split; [reflexivity |]. split; [reflexivity |]. split; [reflexivity |]. split.
      * intros i Hi. rewrite !stack_insert_ne by exact Hi. split; reflexivity.
      * right. exists (nodes e), (edges e). rewrite <- app_assoc. reflexivity.
    + apply last_None in El. rewrite (undo_none w El). repeat split. left. reflexivity.
  - destruct (last (stack (future w) (currentFlowId w))) as [e |] eqn:El.
    + rewrite (redo_some w e El). simpl.
      split; [reflexivity |]. split; [reflexivity |]. split; [reflexivity |]. split.
      * intros i Hi. rewrite !stack_insert_ne by exact Hi. split; reflexivity.
      * right. exists (nodes e), (edges e). rewrite <- app_assoc. reflexivity.
    + apply last_None in El. rewrite (redo_none w El). repeat split. left. reflexivity.
Qed.

Lemma takeSnapshot_within w : within_fifty w -> within_fifty (takeSnapshot w).
Proof.
  intros Hw i. destruct (deduplicates w) eqn:E.
  - rewrite (takeSnapshot_dedup w E). apply Hw.
  - rewrite (takeSnapshot_push w E). unfold history_size. simpl.
    rewrite !stack_insert. destruct (decide (currentFlowId w = i)) as [<- | Hne].
    + rewrite length_app, length_drop. simpl.
      pose proof (Hw (currentFlowId w)) as Hc. unfold history_size in Hc.
      pose proof (keeps_50 (length (stack (past w) (currentFlowId w)))) as Hk. lia.
    + apply Hw.
Qed.

Lemma undo_within w : within_fifty w -> within_fifty (undo w).
Proof.
  intros Hw i. destruct (last (stack (past w) (currentFlowId w))) as [e |] eqn:El.
  - destruct (decide (i = currentFlowId w)) as [-> | Hne].
    + destruct (undo_moves_one w e El) as (_ & _ & _ & ->). apply Hw.
    + rewrite (undo_some w e El). unfold history_size. simpl.
      rewrite !stack_insert_ne by exact Hne. apply Hw.
  - apply last_None in El. rewrite (undo_none w El). apply Hw.
Qed.

Lemma redo_within w : within_fifty w -> within_fifty (redo w).
Proof.
  intros Hw i. destruct (last (stack (future w) (currentFlowId w))) as [e |] eqn:El.
  - destruct (decide (i = currentFlowId w)) as [-> | Hne].
    + destruct (redo_moves_one w e El) as (_ & _ & _ & ->). apply Hw.
    + rewrite (redo_some w e El). unfold history_size. simpl.
      rewrite !stack_insert_ne by exact Hne. apply Hw.
  - apply last_None in El. rewrite (redo_none w El). apply Hw.
Qed.

Lemma step_within w (a : Action) : within_fifty w -> within_fifty (step w a).
Proof.
  intros Hw.
  destruct a;
    try (intros doc;
         match goal with
         | |- (history_size (step w ?a) _ <= _)%nat =>
             rewrite (history_size_frame w _ doc
                        (history_step w a ltac:(discriminate) ltac:(discriminate)
                           ltac:(discriminate)))
         end;
         apply Hw).
  - apply takeSnapshot_within, Hw.
  - apply undo_within, Hw.
  - apply redo_within, Hw.
Qed.

(** X6: whatever the store is put through (snapshots, undos, redos, edits,
    saves, imports, gateway answers, the passing of time), no document ever
    has more than fifty entries in its past and future stacks together; in
    particular an unbounded [redo] never takes a past stack beyond fifty. *)
Theorem history_within_fifty (l : list Action) (i : string) :
  (history_size (run (initial : world) l) i <= 50)%nat
  /\ (length (stack (past (run (initial : world) l)) i) <= 50)%nat.
Proof.
  assert (within_fifty (run (initial : world) l)) as Hw.
  { assert (within_fifty (initial : world)) as H0.
    { intros j. unfold history_size, stack. simpl. rewrite !lookup_empty. simpl. lia. }
    revert H0. generalize (initial : world). induction l as [| a l IH]; intros w Hw.
    - exact Hw.
    - unfold run in *. simpl. apply IH, step_within, Hw. }
  specialize (Hw i). unfold history_size in *. lia.
Qed.

(** *** Deduplication *)

Lemma no_repeat_tail e (l : list entry) : no_repeat (e :: l) -> no_repeat l.
Proof. destruct l; simpl; tauto. Qed.

Lemma no_repeat_drop (k : nat) (l : list entry) : no_repeat l -> no_repeat (drop k l).
Proof.
  revert l. induction k as [| k IH]; intros l Hl; [rewrite drop_0; exact Hl |].
  destruct l as [| e l]; [exact I |]. simpl. apply IH, (no_repeat_tail e), Hl.
Qed.

Lemma no_repeat_snoc (l : list entry) e :
  no_repeat l ->
  (forall y, last l = Some y -> stringify y <> stringify e) ->
  no_repeat (l ++ [e]).
Proof.
  induction l as [| a l IH]; intros Hl Hlast; [exact I |].
  destruct l as [| b l].
  - simpl. split; [apply Hlast; reflexivity | exact I].
  - destruct Hl as [Hab Hl]. split; [exact Hab |].
    apply IH; [exact Hl |]. intros y Hy. apply Hlast. rewrite last_cons_cons. exact Hy.
Qed.

Lemma last_drop_Some {A} (k : nat) (l : list A) (y : A) :
  last (drop k l) = Some y -> last l = Some y.
Proof.
  revert l. induction k as [| k IH]; intros l; [rewrite drop_0; auto |].
  destruct l as [| a l]; [discriminate |]. simpl. intros Hy.
  specialize (IH l Hy). rewrite last_cons, IH. reflexivity.
Qed.

Lemma takeSnapshot_no_repeat w :
  no_repeat (stack (past w) (currentFlowId w)) ->
  no_repeat (stack (past (takeSnapshot w)) (currentFlowId w)).
Proof.
  intros Hw. rewrite takeSnapshot_stack. destruct (deduplicates w) eqn:E; [exact Hw |].
  apply no_repeat_snoc; [apply no_repeat_drop, Hw |].
  intros y Hy. apply last_drop_Some in Hy.
  rewrite deduplicates_last, Hy in E. simpl in E.
  pose proof (last_nonempty_length _ _ Hy) as Hlen.
  destruct (Nat.eqb_spec (length (stack (past w) (currentFlowId w))) 0) as [H0 | _]; [lia |].
  simpl in E. apply String.eqb_neq. exact E.
Qed.

(** X7: along every run of [takeSnapshot] calls that starts from an empty
    history, no two neighbouring entries of the past stack have the same
    JSON text. *)
Theorem snapshots_never_repeat w (gs : list (list Node * list Edge)) :
  stack (past w) (currentFlowId w) = [] ->
  no_repeat (stack (past (snapshots w gs)) (currentFlowId w)).
Proof.
  intros Hw.
  assert (no_repeat (stack (past w) (currentFlowId w))) as Hn by (rewrite Hw; exact I).
  clear Hw. revert w Hn. induction gs as [| g gs IH]; intros w Hn; [exact Hn |].
  unfold snapshots in *. simpl.
  specialize (IH (takeSnapshot (set_session g.1 g.2 w))).
  rewrite takeSnapshot_currentFlowId in IH. apply IH.
  apply (takeSnapshot_no_repeat (set_session g.1 g.2 w)). exact Hn.
Qed.

(** X8: a [takeSnapshot] that pushes keeps the most recent entries of the
    past stack, in order, and puts the live graph on top; from a stack of
    [n] entries it leaves [n + 1] when [n < 50], [100 - n] when
    [50 <= n < 99], and 100 from 99 entries on. *)
Theorem takeSnapshot_push_shape w :
  deduplicates w = false ->
  (exists k, stack (past (takeSnapshot w)) (currentFlowId w)
             = drop k (stack (past w) (currentFlowId w)) ++ [live w])
  /\ last (stack (past (takeSnapshot w)) (currentFlowId w)) = Some (live w)
  /\ length (stack (past (takeSnapshot w)) (currentFlowId w))
     = (let n := length (stack (past w) (currentFlowId w)) in
        if (n <? 50)%nat then (n + 1)%nat
        else if (n <? 99)%nat then (100 - n)%nat else 100%nat).
Proof.
  intros Hd. pose proof (takeSnapshot_stack w) as Hs. rewrite Hd in Hs. rewrite Hs.
  split; [eexists; reflexivity |]. split; [apply last_snoc |].
  rewrite length_app, length_drop, evicted_spec. simpl.
  destruct (Nat.ltb_spec (length (stack (past w) (currentFlowId w))) 50);
    destruct (Nat.ltb_spec (length (stack (past w) (currentFlowId w))) 99); lia.
Qed.

(** *** The registry *)

Lemma coherent_frame w w' : registry_of w' = registry_of w -> coherent w -> coherent w'.
Proof. unfold registry_of, coherent. intros [= -> -> ->]. auto. Qed.

Lemma registry_takeSnapshot w : registry_of (takeSnapshot w) = registry_of w.
Proof.
  destruct (deduplicates w) eqn:E.
  - rewrite (takeSnapshot_dedup w E). reflexivity.
  - rewrite (takeSnapshot_push w E). reflexivity.
Qed.

Lemma registry_undo w : registry_of (undo w) = registry_of w.
Proof. unfold undo. destruct (index_or_null _ _); reflexivity. Qed.

Lemma registry_redo w : registry_of (redo w) = registry_of w.
Proof. unfold redo. destruct (index_or_null _ _); reflexivity. Qed.

Lemma coherent_setFlows (fl : list flow) w : coherent (setFlows fl w).
Proof. reflexivity. Qed.

Lemma coherent_publish_flows (fl : list flow) w : coherent (publish_flows fl w).
Proof. unfold publish_flows. destruct (processFlows fl). reflexivity. Qed.

Lemma coherent_resume (k : Continuation Node Edge Number) (r : Response Node Edge Number) w :
  coherent w -> coherent (resume k r w).
Proof.
  intros Hw. destruct k, r; simpl;
    first [ exact Hw
          | apply coherent_publish_flows
          | unfold saveFlow_then; destruct updatedFlow; [| exact Hw];
            destruct silent; reflexivity ].
Qed.

Lemma coherent_fire (callback : TimerCallback Node Edge Number) w :
  coherent w -> coherent (fire callback w).
Proof.
  intros Hw. destruct callback; simpl.
  - unfold autoSave_timeout. destruct (currentFlow w); exact Hw.
  - apply coherent_publish_flows.
Qed.

Lemma coherent_run_due (fuel : nat) (now : Z) w :
  coherent w -> coherent (run_due fuel now w).
Proof.
  revert w. induction fuel as [| fuel IH]; intros w Hw; simpl; [exact Hw |].
  destruct (earliest _) as [t |]; [| exact Hw].
  apply IH, coherent_fire. exact Hw.
Qed.

Lemma coherent_step w (a : Action) : coherent w -> coherent (step w a).
Proof.
  intros Hw. destruct a; simpl.
  - reflexivity.
  - reflexivity.
  - exact Hw.
  - apply (coherent_frame w); [apply registry_takeSnapshot | exact Hw].
  - apply (coherent_frame w); [apply registry_undo | exact Hw].
  - apply (coherent_frame w); [apply registry_redo | exact Hw].
  - apply (coherent_frame w); [frame | exact Hw].
  - exact Hw.
  - apply (coherent_frame w); [apply registry_addFlow | exact Hw].
  - apply (coherent_frame w); [frame | exact Hw].
  - apply (coherent_frame w); [frame | exact Hw].
  - apply (coherent_frame w); [apply registry_uploadFlow | exact Hw].
  - unfold deliver. destruct (List.find _ _); [| exact Hw].
    apply coherent_resume. exact Hw.
  - unfold advance. apply coherent_run_due. exact Hw.
Qed.

(** X9: in every world the store can reach, the current document is the
    first document of the collection whose id is the current id: it belongs
    to the collection and carries that id, and there is none when no
    document of the collection carries it. *)
Theorem current_document_coherent (l : list Action) :
  currentFlow (run (initial : world) l)
  = find_flow (currentFlowId (run (initial : world) l)) (flows (run (initial : world) l))
  /\ (forall f, currentFlow (run (initial : world) l) = Some f ->
                In f (flows (run (initial : world) l))
                /\ flow_id f = currentFlowId (run (initial : world) l))
  /\ ((forall f, In f (flows (run (initial : world) l)) ->
                 flow_id f <> currentFlowId (run (initial : world) l)) ->
      currentFlow (run (initial : world) l) = None).
Proof.
  assert (coherent (run (initial : world) l)) as Hc.
  { assert (coherent (initial : world)) as H0 by reflexivity.
    revert H0. generalize (initial : world). induction l as [| a l IH]; intros w Hw.
    - exact Hw.
    - unfold run in *. simpl. apply IH, coherent_step, Hw. }
  unfold coherent in Hc. split; [exact Hc |]. rewrite Hc. unfold find_flow. split.
  - intros f Hf. apply List.find_some in Hf as [Hin Heq].
    apply String.eqb_eq in Heq. split; assumption.
  - intros Hnone. destruct (List.find _ _) as [f |] eqn:Ef; [| reflexivity].
    apply List.find_some in Ef as [Hin Heq]. apply String.eqb_eq in Heq.
    exfalso. apply (Hnone f Hin Heq).
Qed.

(** *** saveFlow, when the gateway answers *)

Lemma find_replace_same (updatedFlow : flow) (fl : list flow) :
  (exists f, In f fl /\ flow_id f = flow_id updatedFlow) ->
  find_flow (flow_id updatedFlow) (replace_by_id updatedFlow fl) = Some updatedFlow.
Proof.
  unfold find_flow, replace_by_id.
  induction fl as [| f fl IH]; intros (g & Hin & Hid); [destruct Hin |].
  simpl. destruct (String.eqb_spec (flow_id f) (flow_id updatedFlow)) as [Heq | Hne].
  - rewrite String.eqb_refl. reflexivity.
  - destruct (String.eqb_spec (flow_id f) (flow_id updatedFlow)); [contradiction |].
    apply IH. destruct Hin as [-> | Hin]; [contradiction |]. exists g. split; assumption.
Qed.

Lemma find_replace_other (updatedFlow : flow) (i : string) (fl : list flow) :
  i <> flow_id updatedFlow ->
  find_flow i (replace_by_id updatedFlow fl) = find_flow i fl.
Proof.
  intros Hne. unfold find_flow, replace_by_id.
  induction fl as [| f fl IH]; [reflexivity |]. simpl.
  destruct (String.eqb_spec (flow_id f) (flow_id updatedFlow)) as [Heq | _].
  - destruct (String.eqb_spec (flow_id updatedFlow) i); [congruence |].
    destruct (String.eqb_spec (flow_id f) i); [congruence |]. exact IH.
  - destruct (String.eqb_spec (flow_id f) i); [reflexivity | exact IH].
Qed.

Lemma replace_absent (updatedFlow : flow) (fl : list flow) :
  (forall f, In f fl -> flow_id f <> flow_id updatedFlow) ->
  replace_by_id updatedFlow fl = fl.
Proof.
  intros Habs. unfold replace_by_id. rewrite <- (List.map_id fl) at 2.
  apply List.map_ext_in. intros f Hf.
  destruct (String.eqb_spec (flow_id f) (flow_id updatedFlow)); [| reflexivity].
  exfalso. apply (Habs f Hf). assumption.
Qed.

(** X10: when the gateway answers a [saveFlow] with the updated document,
    every document of the collection with its id is replaced by it and all
    others stay in place.  A document that is not registered is not added.
    If its id is the current id and it is registered, it becomes the current
    document; if its id is another, the current document stays.  A success
    notice is sent unless the save was silent, and nothing else is called. *)
Theorem saveFlow_then_replaces (silent : bool) (updatedFlow : flow) w :
  flows (saveFlow_then silent (Some updatedFlow) w) = replace_by_id updatedFlow (flows w)
  /\ length (flows (saveFlow_then silent (Some updatedFlow) w)) = length (flows w)
  /\ ((forall f, In f (flows w) -> flow_id f <> flow_id updatedFlow) ->
      flows (saveFlow_then silent (Some updatedFlow) w) = flows w)
  /\ ((exists f, In f (flows w) /\ flow_id f = flow_id updatedFlow) ->
      currentFlowId w = flow_id updatedFlow ->
      currentFlow (saveFlow_then silent (Some updatedFlow) w) = Some updatedFlow)
  /\ (coherent w -> currentFlowId w <> flow_id updatedFlow ->
      currentFlow (saveFlow_then silent (Some updatedFlow) w) = currentFlow w)
  /\ log (saveFlow_then silent (Some updatedFlow) w)
     = (if silent then log w
        else log w ++ [EvSetSuccessData "Changes saved successfully"])
  /\ currentFlowId (saveFlow_then silent (Some updatedFlow) w) = currentFlowId w.
Proof.
  assert (flows (saveFlow_then silent (Some updatedFlow) w)
          = replace_by_id updatedFlow (flows w)) as Hfl by (destruct silent; reflexivity).
  assert (currentFlow (saveFlow_then silent (Some updatedFlow) w)
          = find_flow (currentFlowId w) (replace_by_id updatedFlow (flows w))) as Hcur
      by (destruct silent; reflexivity).
  rewrite Hfl, Hcur. repeat split.
  - unfold replace_by_id. apply length_map.
  - apply replace_absent.
  - intros Hreg ->. apply find_replace_same, Hreg.
  - intros Hc Hne. rewrite find_replace_other by exact Hne. symmetry. exact Hc.
  - destruct silent; reflexivity.
  - destruct silent; reflexivity.
Qed.

(** *** removeFlow and deleteComponent *)

Lemma find_present {A} (p : A -> bool) (l : list A) (x : A) :
  In x l -> p x = true -> exists y, List.find p l = Some y.
Proof.
  intros Hin Hp. destruct (List.find p l) as [y |] eqn:E; [eauto |].
  pose proof (List.find_none p l E x Hin). congruence.
Qed.

Lemma find_absent {A} (p : A -> bool) (l : list A) :
  (forall x, In x l -> p x = false) -> List.find p l = None.
Proof.
  intros Habs. destruct (List.find p l) as [y |] eqn:E; [| reflexivity].
  apply List.find_some in E as [Hin Hp]. rewrite (Habs y Hin) in Hp. discriminate.
Qed.

Lemma removeFlow_known (i : string) w (f : flow) :
  In f (flows w) -> flow_id f = i ->
  removeFlow i w = call_gateway (EvDeleteFlowFromDatabase i) (RemoveFlowThen i) w.
Proof.
  intros Hin Hid. unfold removeFlow.
  destruct (find_present (fun g => String.eqb (flow_id g) i) (flows w) f Hin) as [y ->];
    [apply String.eqb_eq, Hid | reflexivity].
Qed.

Lemma removeFlow_unknown (i : string) w :
  (forall f, In f (flows w) -> flow_id f <> i) -> removeFlow i w = w.
Proof.
  intros Habs. unfold removeFlow. rewrite find_absent; [reflexivity |].
  intros f Hf. apply String.eqb_neq, Habs, Hf.
Qed.

(** X11: [removeFlow] of an id no registered document carries changes
    nothing and calls nothing.  For a registered id it makes exactly one
    call, the gateway's delete for that id, and leaves the registry as it is
    until the gateway answers.  The answer hands [processFlows] the
    collection without the documents of that id; if [processFlows] returns
    only documents it was given, no document of that id is left, and there
    is no current document if the id was the current one. *)
Theorem removeFlow_behaviour (i : string) w :
  ((forall f, In f (flows w) -> flow_id f <> i) -> removeFlow i w = w)
  /\ ((exists f, In f (flows w) /\ flow_id f = i) ->
      log (removeFlow i w) = log w ++ [EvDeleteFlowFromDatabase i]
      /\ registry_of (removeFlow i w) = registry_of w
      /\ inflight (removeFlow i w)
         = inflight w ++ [{| request_id := nextId w;
                             request_continuation := RemoveFlowThen i |}])
  /\ flows (removeFlow_then i w)
     = (processFlows (List.filter (fun f => negb (String.eqb (flow_id f) i)) (flows w))).2
  /\ ((forall fl f, In f (processFlows fl).2 -> In f fl) ->
      (forall f, In f (flows (removeFlow_then i w)) -> flow_id f <> i)
      /\ (currentFlowId w = i -> currentFlow (removeFlow_then i w) = None)).
Proof.
  assert (flows (removeFlow_then i w)
          = (processFlows (List.filter (fun f => negb (String.eqb (flow_id f) i))
                                       (flows w))).2
          /\ currentFlow (removeFlow_then i w)
             = find_flow (currentFlowId w) (flows (removeFlow_then i w))) as [Hfl Hcur].
  { unfold removeFlow_then, publish_flows. destruct (processFlows _). split; reflexivity. }
  split; [apply removeFlow_unknown |]. split; [| split; [exact Hfl |]].
  - intros (f & Hin & Hid). rewrite (removeFlow_known i w f Hin Hid). repeat split.
  - intros Hsub.
    assert (forall f, In f (flows (removeFlow_then i w)) -> flow_id f <> i) as Hgone.
    { intros f Hf. rewrite Hfl in Hf. apply Hsub, List.filter_In in Hf as [_ Hne].
      apply negb_true_iff, String.eqb_neq in Hne. exact Hne. }
    split; [exact Hgone |]. intros Hi. rewrite Hcur. unfold find_flow.
    apply find_absent. intros f Hf. apply String.eqb_neq. rewrite Hi. apply Hgone, Hf.
Qed.

(** X12: [deleteComponent] changes nothing when no component of the
    collection has the given name, even if a flow that is not a component
    has it.  When a component of the collection has the name, the call is
    the gateway's delete for the id of the first such component: exactly one
    call is made and one continuation, the removal of that id, is left
    waiting.  The registry is not touched by the call itself. *)
Theorem deleteComponent_only_components (key : string) w :
  ((forall f, In f (flows w) -> truthy (is_component f) = true -> flow_name f <> key) ->
   deleteComponent key w = w)
  /\ ((exists c, In c (flows w) /\ truthy (is_component c) = true /\ flow_name c = key) ->
      exists f,
        List.find (fun f => truthy (is_component f) && String.eqb (flow_name f) key)
                  (flows w) = Some f
        /\ In f (flows w) /\ truthy (is_component f) = true /\ flow_name f = key
        /\ log (deleteComponent key w) = log w ++ [EvDeleteFlowFromDatabase (flow_id f)]
        /\ inflight (deleteComponent key w)
           = inflight w ++ [{| request_id := nextId w;
                               request_continuation := RemoveFlowThen (flow_id f) |}])
  /\ registry_of (deleteComponent key w) = registry_of w.
Proof.
  split; [| split].
  - intros Habs. unfold deleteComponent. rewrite find_absent; [reflexivity |].
    intros f Hf. destruct (truthy (is_component f)) eqn:Ec; [| reflexivity].
    simpl. apply String.eqb_neq, Habs; assumption.
  - intros (c & Hin & Hcomp & Hname).
    destruct (find_present
                (fun f => truthy (is_component f) && String.eqb (flow_name f) key)
                (flows w) c Hin) as [f Ef].
    { rewrite Hcomp. apply String.eqb_eq, Hname. }
    exists f. split; [exact Ef |]. unfold deleteComponent. rewrite Ef.
    apply List.find_some in Ef as [Hf Hp]. apply andb_true_iff in Hp as [Hfc Hfn].
    apply String.eqb_eq in Hfn.
    rewrite (removeFlow_known (flow_id f) w f Hf eq_refl). repeat split; assumption.
  - frame.
Qed.

(** *** The component check *)

Lemma component_conflict_xor (fileData : FileData Node Edge Number) (ic : bool) :
  component_conflict fileData ic = xorb (truthy (is_component (file_flow fileData))) ic.
Proof.
  unfold component_conflict.
  destruct (is_component (file_flow fileData)) as [[|] |], ic; reflexivity.
Qed.

Lemma awaited_not_rejected {A} (p : Promise A) (reason : string) :
  awaited p <> Rejected reason.
Proof. destruct p; discriminate. Qed.

Lemma xorb_true_ne (a b : bool) : xorb a b = true <-> a <> b.
Proof. destruct a, b; simpl; split; congruence. Qed.

Lemma uploadFlow_with_file (args : UploadFlowArgs Number File) (f : File)
    (fileData : FileData Node Edge Number) w :
  file args = Some f ->
  parse f = Some fileData ->
  uploadFlow args w
  = if newProject args && component_conflict fileData (default false (isComponent args))
    then (w, Rejected conflict_message)
    else forwarded args fileData w.
Proof. intros Hfile Hparse. unfold uploadFlow, forwarded. rewrite Hfile, Hparse. reflexivity. Qed.

Lemma forwarded_not_rejected (args : UploadFlowArgs Number File)
    (fileData : FileData Node Edge Number) w (reason : string) :
  (forwarded args fileData w).2 <> Rejected reason.
Proof.
  unfold forwarded. destruct (file_flows fileData); [discriminate |].
  destruct (addFlow _ _ _ _ w). apply awaited_not_rejected.
Qed.

Lemma flag_conflict_typed (fileData : FileData Node Edge Number) (ic : bool) :
  flag_conflict (flag_of (is_component (file_flow fileData))) ic
  = component_conflict fileData ic.
Proof.
  unfold flag_conflict, component_conflict.
  destruct (is_component (file_flow fileData)) as [[|] |], ic; reflexivity.
Qed.

(** X13: the component check of [uploadFlow], over every value the payload's
    [is_component] can hold after [JSON.parse].  The check passes exactly
    when the flag is the boolean [isComponent] itself, or is missing while
    [isComponent] is false.  A flag that is [null], or of a type other than
    boolean, conflicts whatever [isComponent] is.  On a flag that is missing
    or a boolean the check is [component_conflict], which tells whether the
    flag, a missing one counting as false, differs from [isComponent]. *)
Theorem component_check_accepts :
  (forall x ic, flag_conflict x ic = false
                <-> x = FlagBool ic \/ (x = FlagAbsent /\ ic = false))
  /\ (forall ic, flag_conflict FlagNull ic = true)
  /\ (forall t ic, flag_conflict (FlagOther t) ic = true)
  /\ (forall (fileData : FileData Node Edge Number) ic,
        component_conflict fileData ic
        = flag_conflict (flag_of (is_component (file_flow fileData))) ic
        /\ (component_conflict fileData ic = true
            <-> truthy (is_component (file_flow fileData)) <> ic)).
Proof.
  split; [| split; [| split]].
  - intros x ic. split.
    + destruct x as [| | b | t], ic; try destruct b; try destruct t;
        simpl; intros H; try discriminate H; auto.
    + intros [-> | [-> ->]]; [destruct ic |]; reflexivity.
  - intros []; reflexivity.
  - intros [] []; reflexivity.
  - intros fileData ic. split; [symmetry; apply flag_conflict_typed |].
    rewrite component_conflict_xor. apply xorb_true_ne.
Qed.

(** X14: for a payload whose [is_component] is missing or a boolean.  With
    a supplied file, [uploadFlow] rejects with the conflict message exactly
    when [newProject] is true and the component check conflicts.  The
    handler of the file dialog rejects exactly when the chosen file is JSON
    and the check conflicts, whatever [newProject] is, and ignores a file of
    another media type, leaving the promise pending.  A rejection changes
    nothing. *)
Theorem uploadFlow_rejects_on_check (args : UploadFlowArgs Number File)
    (fileData : FileData Node Edge Number) w :
  (forall f, file args = Some f -> parse f = Some fileData ->
     ((uploadFlow args w).2 = Rejected conflict_message
      <-> newProject args = true
          /\ flag_conflict (flag_of (is_component (file_flow fileData)))
                           (default false (isComponent args)) = true)
     /\ ((uploadFlow args w).2 = Rejected conflict_message -> (uploadFlow args w).1 = w))
  /\ (forall type,
        ((uploadFlow_onchange args type fileData w).2 = Rejected conflict_message
         <-> type = "application/json"
             /\ flag_conflict (flag_of (is_component (file_flow fileData)))
                              (default false (isComponent args)) = true)
        /\ ((uploadFlow_onchange args type fileData w).2 = Rejected conflict_message ->
            (uploadFlow_onchange args type fileData w).1 = w)
        /\ (type <> "application/json" ->
            uploadFlow_onchange args type fileData w = (w, Pending))).
Proof.
  rewrite flag_conflict_typed. split.
  - intros f Hfile Hparse. rewrite (uploadFlow_with_file args f fileData w Hfile Hparse).
    destruct (newProject args
              && component_conflict fileData (default false (isComponent args))) eqn:E.
    + apply andb_true_iff in E as [Hnew Hc].
      split; [split; [intros _; split; assumption | reflexivity] | reflexivity].
    + split; [split |].
      * intros Hr. destruct (forwarded_not_rejected _ _ _ _ Hr).
      * intros [Hnew Hc]. rewrite Hnew, Hc in E. discriminate.
      * intros Hr. destruct (forwarded_not_rejected _ _ _ _ Hr).
  - intros type. unfold uploadFlow_onchange.
    destruct (String.eqb_spec type "application/json") as [Ht | Ht].
    + destruct (component_conflict fileData (default false (isComponent args))) eqn:Hc.
      * split; [split; [intros _; split; [assumption | reflexivity] | reflexivity] |].
        split; [reflexivity | contradiction].
      * assert (forall p : world * Promise (option string),
                   (let '(w', q) := p in (w', awaited q)).2 <> Rejected conflict_message)
          as Hnr by (intros [w' q]; apply awaited_not_rejected).
        split; [split |].
        -- intros Hr. destruct (Hnr _ Hr).
        -- intros [_ Hne]. discriminate.
        -- split; [intros Hr; destruct (Hnr _ Hr) | contradiction].
    + simpl. split; [split; [discriminate | intros [? _]; contradiction] |].
      split; [discriminate | reflexivity].
Qed.

(** *** Bundles *)

Lemma addFlow_paste_log (f : flow) (override : option bool) (pos : XYPosition Number) w :
  log (addFlow false (Some f) override (Some pos) w).1
  = log w ++ match paste_of pos f with Some ev => [ev] | None => [] end.
Proof.
  unfold addFlow, paste_of. destruct (data f); simpl; [| rewrite app_nil_r; reflexivity].
  unfold paste. destruct (pasted _ _ _). reflexivity.
Qed.

Lemma fold_paste_log (pos : XYPosition Number) (fl : list flow) w :
  log (foldl (fun w f => (addFlow false (Some f) None (Some pos) w).1) w fl)
  = log w ++ omap (paste_of pos) fl.
Proof.
  revert w. induction fl as [| f fl IH]; intros w; [simpl; rewrite app_nil_r; reflexivity |].
  cbn [foldl]. rewrite IH, addFlow_paste_log, <- app_assoc.
  destruct (paste_of pos f) eqn:E; simpl; rewrite E; reflexivity.
Qed.

Lemma runtime_addFlow_paste (f : option flow) (override : option bool)
    (pos : option (XYPosition Number)) w :
  runtime_of (addFlow false f override pos w).1 = runtime_of w.
Proof. frame. Qed.

(** X15: a bundle passed to [uploadFlow] with [newProject] false is pasted
    document by document, in the order of the bundle and at the one given
    position (or (10, 10)); a document without a graph payload is skipped.
    No component check is made, nothing is sent to the gateway, the registry
    stays as it is, and the promise resolves to the empty string. *)
Theorem uploadFlow_bundle_pastes (args : UploadFlowArgs Number File) (f : File)
    (fileData : FileData Node Edge Number) (fl : list flow) w :
  newProject args = false ->
  file args = Some f ->
  parse f = Some fileData ->
  file_flows fileData = Some fl ->
  log (uploadFlow args w).1
  = log w ++ omap (paste_of (default {| pos_x := number 10; pos_y := number 10 |}
                                     (position args))) fl
  /\ (uploadFlow args w).2 = Resolved (Some EmptyString)
  /\ registry_of (uploadFlow args w).1 = registry_of w
  /\ runtime_of (uploadFlow args w).1 = runtime_of w.
Proof.
  intros Hnew Hfile Hparse Hfl.
  rewrite (uploadFlow_with_file args f fileData w Hfile Hparse), Hnew. cbn [andb].
  unfold forwarded. rewrite Hfl, Hnew. cbn [fst snd].
  split; [apply fold_paste_log |]. split; [reflexivity |]. split.
  - apply (frames_fold_addFlow registry_of). intros; apply registry_addFlow.
  - apply (frames_fold_addFlow runtime_of). intros; apply runtime_addFlow_paste.
Qed.

Lemma addFlow_create (f : option flow) (override : option bool)
    (pos : option (XYPosition Number)) w :
  truthy override = false ->
  addFlow true f override pos w
  = (call_gateway (EvSaveFlowToDatabase (created_for (flows w) f))
                  (AddFlowAwait (created_for (flows w) f)) w,
     Pending).
Proof. intros Ho. unfold addFlow, created_for. rewrite Ho. reflexivity. Qed.

Lemma fold_create (pos : option (XYPosition Number)) (fl : list flow) w :
  log (foldl (fun w f => (addFlow true (Some f) None pos w).1) w fl)
  = log w ++ map (fun f => EvSaveFlowToDatabase (created_for (flows w) (Some f))) fl
  /\ map request_continuation
         (inflight (foldl (fun w f => (addFlow true (Some f) None pos w).1) w fl))
     = map request_continuation (inflight w)
       ++ map (fun f => AddFlowAwait (created_for (flows w) (Some f))) fl.
Proof.
  revert w. induction fl as [| f fl IH]; intros w.
  - simpl. rewrite !app_nil_r. split; reflexivity.
  - cbn [foldl]. destruct (IH (addFlow true (Some f) None pos w).1) as [Hl Hq].
    rewrite Hl, Hq. rewrite (addFlow_create (Some f) None pos w eq_refl). simpl.
    rewrite map_app, <- !app_assoc. split; reflexivity.
Qed.

(** X16: a bundle passed to [uploadFlow] with [newProject] true that passes
    the component check sends one create to the gateway per document, in
    the order of the bundle, and leaves one continuation per document
    waiting.  Each name is resolved by [addVersionToDuplicates] against the
    collection as it is once the file has been read, when the documents are
    sent, not against the documents of the bundle sent before it.  Sending
    them leaves the registry as it is, and the promise resolves to the empty
    string as soon as they are sent, before any answer of the gateway. *)
Theorem uploadFlow_bundle_creates (args : UploadFlowArgs Number File) (f : File)
    (fileData : FileData Node Edge Number) (fl : list flow) w :
  newProject args = true ->
  file args = Some f ->
  parse f = Some fileData ->
  component_conflict fileData (default false (isComponent args)) = false ->
  file_flows fileData = Some fl ->
  log (uploadFlow args w).1
  = log w ++ map (fun g => EvSaveFlowToDatabase (created_for (flows w) (Some g))) fl
  /\ map request_continuation (inflight (uploadFlow args w).1)
     = map request_continuation (inflight w)
       ++ map (fun g => AddFlowAwait (created_for (flows w) (Some g))) fl
  /\ (uploadFlow args w).2 = Resolved (Some EmptyString)
  /\ registry_of (uploadFlow args w).1 = registry_of w.
Proof.
  intros Hnew Hfile Hparse Hc Hfl.
  rewrite (uploadFlow_with_file args f fileData w Hfile Hparse), Hnew, Hc. cbn [andb].
  unfold forwarded. rewrite Hfl, Hnew. cbn [fst snd].
  destruct (fold_create
              (Some (default {| pos_x := number 10; pos_y := number 10 |} (position args)))
              fl w) as [Hl Hq].
  split; [exact Hl |]. split; [exact Hq |]. split; [reflexivity |].
  apply (frames_fold_addFlow registry_of). intros; apply registry_addFlow.
Qed.

(** *** addFlow and the gateway's answer *)

Lemma find_snoc_fresh {A} (p : A -> bool) (l : list A) (x : A) :
  (forall y, In y l -> p y = false) -> p x = true ->
  List.find p (l ++ [x]) = Some x
  /\ List.filter (fun y => negb (p y)) (l ++ [x]) = l.
Proof.
  intros Hl Hx. induction l as [| y l IH]; simpl.
  - rewrite Hx. split; reflexivity.
  - rewrite (Hl y (or_introl eq_refl)). simpl.
    destruct IH as [-> ->]; [intros z Hz; apply Hl; right; exact Hz |].
    split; reflexivity.
Qed.

(** The answer to the gateway call just made reaches its continuation. *)
Lemma deliver_latest (ev : Event Node Edge Number SavedComponents)
    (k : Continuation Node Edge Number) (r : Response Node Edge Number) w :
  (forall q, In q (inflight w) -> request_id q <> nextId w) ->
  deliver (nextId w) r (call_gateway ev k w)
  = resume k r
      (set_runtime (clock w) (Pos.succ (nextId w)) (timers w) (inflight w) (emit ev w)).
Proof.
  intros Hfresh. unfold deliver, call_gateway. simpl.
  destruct (find_snoc_fresh
              (fun q : Request Node Edge Number => Pos.eqb (request_id q) (nextId w))
              (inflight w)
              {| request_id := nextId w; request_continuation := k |}) as [-> ->].
  - intros q Hq. apply Pos.eqb_neq, Hfresh, Hq.
  - apply Pos.eqb_refl.
  - reflexivity.
Qed.

(** X17: [addFlow] with [newProject] true and no override sends one create
    to the gateway, of the document built from the source with the name
    [addVersionToDuplicates] gives it, and leaves the registry as it is;
    its promise is pending.  When the gateway answers with an id, the
    collection becomes what [processFlows] makes of the new document, now
    carrying that id, followed by the old collection, and the loading flag
    is cleared.  When the gateway fails, the registry stays as it was.  In
    both cases no request is left in flight. *)
Theorem addFlow_create_round_trip (f : option flow) (override : option bool)
    (pos : option (XYPosition Number)) (i message : string) w :
  truthy override = false ->
  (forall q, In q (inflight w) -> request_id q <> nextId w) ->
  (addFlow true f override pos w).2 = Pending
  /\ log (addFlow true f override pos w).1
     = log w ++ [EvSaveFlowToDatabase (created_for (flows w) f)]
  /\ registry_of (addFlow true f override pos w).1 = registry_of w
  /\ flows (deliver (nextId w) (RespCreated i) (addFlow true f override pos w).1)
     = (processFlows (with_id (created_for (flows w) f) i :: flows w)).2
  /\ isLoading (deliver (nextId w) (RespCreated i) (addFlow true f override pos w).1)
     = false
  /\ inflight (deliver (nextId w) (RespCreated i) (addFlow true f override pos w).1)
     = inflight w
  /\ registry_of (deliver (nextId w) (RespError message)
                    (addFlow true f override pos w).1) = registry_of w
  /\ inflight (deliver (nextId w) (RespError message) (addFlow true f override pos w).1)
     = inflight w.
Proof.
  intros Ho Hfresh. rewrite (addFlow_create f override pos w Ho). simpl fst. simpl snd.
  rewrite !deliver_latest by exact Hfresh.
  split; [reflexivity |]. split; [reflexivity |]. split; [reflexivity |].
  simpl. unfold addFlow_resume, publish_flows. simpl.
  destruct (processFlows _). repeat split.
Qed.

Lemma advance_only_timer (d : Z) w (t : Timer Node Edge Number) :
  timers w = [t] ->
  (clock w + d < timer_due t ->
   advance d w = set_runtime (clock w + d) (nextId w) [t] (inflight w) w)
  /\ (timer_due t <= clock w + d ->
      advance d w
      = fire (timer_callback t)
          (set_runtime (clock w + d) (nextId w) [] (inflight w) w)).
Proof.
  intros Ht. split; intros Hd; unfold advance; rewrite Ht.
  - apply run_due_idle. simpl. intros t' Ht'.
    apply list_elem_of_singleton in Ht' as ->. exact Hd.
  - simpl. unfold is_due at 1.
    destruct (Z.leb_spec (timer_due t) (clock w + d)) as [_ | Hlt]; [| lia].
    simpl. unfold clearTimeout. simpl.
    rewrite filter_cons_False by (intros Hne; apply Hne; reflexivity).
    reflexivity.
Qed.

(** X18: [addFlow] with [newProject] and [override] true.  Without a source
    document it rejects and changes nothing.  With one it first runs
    [deleteComponent] on the source's name, then sends one create of the
    document built from the source, under the source's own name (no version
    suffix), and leaves the registry as it is.  After the gateway's answer
    the registry still stays as it is for 200 ms; once they have passed the
    collection becomes what [processFlows] makes of the new document
    followed by the old collection. *)
Theorem addFlow_override_behaviour :
  (forall (pos : option (XYPosition Number)) w,
      addFlow true None (Some true) pos w = (w, Rejected "TypeError"))
  /\ (forall (f : flow) (pos : option (XYPosition Number)) w,
         (addFlow true (Some f) (Some true) pos w).2 = Pending
         /\ log (addFlow true (Some f) (Some true) pos w).1
            = log (deleteComponent (flow_name f) w)
              ++ [EvSaveFlowToDatabase (createNewFlow (processDataFromFlow f) (Some f))]
         /\ registry_of (addFlow true (Some f) (Some true) pos w).1 = registry_of w)
  /\ (forall (newFlow : flow) (i : string) (d : Z) w,
         timers w = [] ->
         (d < 200 ->
          registry_of (advance d (addFlow_override_resume newFlow i w)) = registry_of w)
         /\ (200 <= d ->
             flows (advance d (addFlow_override_resume newFlow i w))
             = (processFlows (with_id newFlow i :: flows w)).2
             /\ isLoading (advance d (addFlow_override_resume newFlow i w)) = false
             /\ timers (advance d (addFlow_override_resume newFlow i w)) = [])).
Proof.
  split; [reflexivity |]. split.
  - intros f pos w. split; [reflexivity |]. split; [reflexivity |].
    apply registry_addFlow.
  - intros newFlow i d w Ht.
    destruct (advance_only_timer d (addFlow_override_resume newFlow i w)
                {| timer_id := nextId w; timer_due := clock w + 200;
                   timer_callback := AddFlowTimeout (with_id newFlow i) |})
      as [Hidle Hfire].
    { unfold addFlow_override_resume. simpl. rewrite Ht. reflexivity. }
    split; intros Hd.
    + rewrite Hidle by (simpl; lia). reflexivity.
    + rewrite Hfire by (simpl; lia). simpl.
      unfold addFlow_timeout, publish_flows. simpl.
      destruct (processFlows _). repeat split.
Qed.

(** *** The target of an autosave *)



End Further.

(** ** More of the store at work *)

(** An undo of the one snapshot, and the redo that follows it. *)
Lemma undo_redo_move_one_witness :
  live (undo Demo.snapped) = {| nodes := [1%nat]; edges := [] |}
  /\ live (redo Demo.undone) = {| nodes := [2%nat]; edges := [] |}.
Proof.
  split.
  - apply (proj1 undo_redo_move_one Demo.snapped {| nodes := [1%nat]; edges := [] |}).
    reflexivity.
  - apply (proj2 undo_redo_move_one Demo.undone {| nodes := [2%nat]; edges := [] |}).
    reflexivity.
Defined.

Lemma undo_redo_round_trips_witness :
  live (redo (undo Demo.snapped)) = live Demo.snapped
  /\ live (undo (redo Demo.undone)) = live Demo.undone.
Proof.
  split.
  - apply (proj1 undo_redo_round_trips Demo.snapped {| nodes := [1%nat]; edges := [] |}).
    reflexivity.
  - apply (proj2 undo_redo_round_trips Demo.undone {| nodes := [2%nat]; edges := [] |}).
    reflexivity.
Defined.

(** Graph 1 is live, a snapshot is taken, graph 9 is drawn, then undone. *)
Lemma undo_returns_to_snapshot_witness :
  live (undo (set_session [9%nat] [] (takeSnapshot (set_session [1%nat] [] Demo.opened))))
  = {| nodes := [1%nat]; edges := [] |}.
Proof.
  apply (proj1 (proj2 (undo_returns_to_snapshot (set_session [1%nat] [] Demo.opened)
                         [9%nat] []))).
  reflexivity.
Defined.

Lemma redo_after_snapshot_noop_witness :
  redo (takeSnapshot (set_session [1%nat] [] Demo.opened))
  = takeSnapshot (set_session [1%nat] [] Demo.opened).
Proof. apply redo_after_snapshot_noop. reflexivity. Defined.

(** Other documents keep their stacks through an undo. *)
Lemma history_operations_frame_witness :
  stack (past (undo Demo.snapped)) "flow-2" = stack (past Demo.snapped) "flow-2".
Proof.
  destruct (@history_operations_frame _ _ _ _ _ Demo.externals) as (_ & Hundo & _).
  destruct (Hundo Demo.snapped) as (_ & _ & _ & Hother & _).
  apply Hother. discriminate.
Defined.

Lemma snapshots_never_repeat_witness :
  no_repeat (stack (past (snapshots Demo.opened (Demo.graphs 60))) (currentFlowId Demo.opened)).
Proof. apply snapshots_never_repeat. reflexivity. Defined.

Lemma takeSnapshot_push_shape_witness :
  last (stack (past (takeSnapshot Demo.fifty_edited)) (currentFlowId Demo.fifty_edited))
  = Some (live Demo.fifty_edited).
Proof.
  destruct (takeSnapshot_push_shape Demo.fifty_edited) as (_ & Htop & _);
    [vm_compute; reflexivity | exact Htop].
Defined.

(** The sketch is registered and current. *)
Lemma current_document_coherent_witness :
  In Demo.sketch (flows Demo.editing) /\ flow_id Demo.sketch = currentFlowId Demo.editing.
Proof.
  apply (proj1 (proj2 (@current_document_coherent _ _ _ _ _ Demo.externals
                         [DoSetFlows [Demo.sketch]; DoSetCurrentFlowId Demo.doc]))).
  reflexivity.
Defined.

(** The gateway returns the saved sketch; it becomes the current document. *)
Lemma saveFlow_then_replaces_witness :
  currentFlow (saveFlow_then true (Some Demo.sketch_saved) Demo.editing)
  = Some Demo.sketch_saved
  /\ flows (saveFlow_then true (Some Demo.sketch_saved) Demo.opened) = flows Demo.opened.
Proof.
  destruct (saveFlow_then_replaces true Demo.sketch_saved Demo.editing)
    as (_ & _ & _ & Hcur & _).
  destruct (saveFlow_then_replaces true Demo.sketch_saved Demo.opened)
    as (_ & _ & Habs & _).
  split.
  - apply Hcur; [| reflexivity]. exists Demo.sketch. split; [left |]; reflexivity.
  - apply Habs. intros f Hf. destruct Hf.
Defined.

(** The sketch is removed; an unknown id is ignored. *)
Lemma removeFlow_behaviour_witness :
  removeFlow "nowhere" Demo.editing = Demo.editing
  /\ log (removeFlow Demo.doc Demo.editing) = [EvDeleteFlowFromDatabase Demo.doc]
  /\ currentFlow (removeFlow_then Demo.doc Demo.editing) = None.
Proof.
  destruct (removeFlow_behaviour "nowhere" Demo.editing) as (Hunknown & _).
  destruct (removeFlow_behaviour Demo.doc Demo.editing) as (_ & Hknown & _ & Hgone).
  split; [| split].
  - apply Hunknown. intros f [<- | []]. discriminate.
  - apply Hknown. exists Demo.sketch. split; [left |]; reflexivity.
  - apply Hgone; [| reflexivity]. intros fl f Hf. exact Hf.
Defined.

(** No component is called Sketch, though a flow is; the component called
    Prompt is deleted at the gateway. *)
Lemma deleteComponent_only_components_witness :
  deleteComponent "Sketch" Demo.library = Demo.library
  /\ log (deleteComponent "Prompt" Demo.library) = [EvDeleteFlowFromDatabase "c-1"]
  /\ map request_continuation (inflight (deleteComponent "Prompt" Demo.library))
     = [RemoveFlowThen "c-1"].
Proof.
  destruct (deleteComponent_only_components "Sketch" Demo.library) as (Hnone & _).
  destruct (deleteComponent_only_components "Prompt" Demo.library) as (_ & Hsome & _).
  split.
  - apply Hnone. intros f [<- | [<- | []]]; [intros _ | intros Hc]; discriminate.
  - destruct Hsome as (f & Ef & _ & _ & _ & Hlog & Hq).
    + exists Demo.component. split; [left; reflexivity | split; reflexivity].
    + vm_compute in Ef. injection Ef as <-. rewrite Hlog, Hq. split; reflexivity.
Defined.

(** The component is rejected as a new flow and not when it is pasted; the
    dialog rejects it either way. *)
Lemma uploadFlow_rejects_on_check_witness :
  (uploadFlow Demo.imported Demo.opened).2 = Rejected conflict_message
  /\ (uploadFlow Demo.dropped Demo.opened).2 <> Rejected conflict_message
  /\ (uploadFlow_onchange Demo.dropped "application/json"
        {| file_flow := Demo.component; file_flows := None |} Demo.opened).2
     = Rejected conflict_message
  /\ uploadFlow_onchange Demo.dropped "text/plain"
       {| file_flow := Demo.component; file_flows := None |} Demo.opened
     = (Demo.opened, Pending).
Proof.
  destruct (uploadFlow_rejects_on_check Demo.imported
              {| file_flow := Demo.component; file_flows := None |} Demo.opened)
    as (Himported & _).
  destruct (Himported (Some {| file_flow := Demo.component; file_flows := None |}))
    as [Hi _]; [reflexivity | reflexivity |].
  destruct (uploadFlow_rejects_on_check Demo.dropped
              {| file_flow := Demo.component; file_flows := None |} Demo.opened)
    as (Hdropped & Hdialog).
  destruct (Hdropped (Some {| file_flow := Demo.component; file_flows := None |}))
    as [Hd _]; [reflexivity | reflexivity |].
  destruct (Hdialog "application/json") as (Hjson & _).
  destruct (Hdialog "text/plain") as (_ & _ & Hother).
  split; [| split; [| split]].
  - apply Hi. split; reflexivity.
  - intros Hr. apply Hd in Hr as [Hnew _]. discriminate.
  - apply Hjson. split; reflexivity.
  - apply Hother. discriminate.
Defined.

(** The component and the sketch are pasted, in that order, at (10, 10). *)
Lemma uploadFlow_bundle_pastes_witness :
  log (uploadFlow Demo.bundle_dropped Demo.opened).1
  = [EvPaste {| nodes := [7%nat]; edges := [] |} {| pos_x := 10; pos_y := 10 |};
     EvPaste {| nodes := []; edges := [] |} {| pos_x := 10; pos_y := 10 |}].
Proof.
  destruct (uploadFlow_bundle_pastes Demo.bundle_dropped
              (Some {| file_flow := Demo.sketch;
                       file_flows := Some [Demo.component; Demo.sketch] |})
              {| file_flow := Demo.sketch;
                 file_flows := Some [Demo.component; Demo.sketch] |}
              [Demo.component; Demo.sketch] Demo.opened)
    as (Hlog & _); [reflexivity | reflexivity | reflexivity | reflexivity |].
  exact Hlog.
Defined.

(** Both sketches of the bundle are sent under the same resolved name. *)
Lemma uploadFlow_bundle_creates_witness :
  flow_name <$> saved_creates (log (uploadFlow Demo.bundle_imported Demo.editing).1)
  = ["Sketch (2)"; "Sketch (2)"].
Proof.
  destruct (uploadFlow_bundle_creates Demo.bundle_imported
              (Some {| file_flow := Demo.sketch;
                       file_flows := Some [Demo.sketch; Demo.sketch] |})
              {| file_flow := Demo.sketch;
                 file_flows := Some [Demo.sketch; Demo.sketch] |}
              [Demo.sketch; Demo.sketch] Demo.editing)
    as (Hlog & _);
    [reflexivity | reflexivity | reflexivity | reflexivity | reflexivity |].
  rewrite Hlog. vm_compute. reflexivity.
Defined.

Lemma addFlow_create_round_trip_witness :
  flow_id <$> flows (deliver 1%positive (RespCreated "id-9")
                       (addFlow true (Some Demo.sketch) None None Demo.opened).1)
  = ["id-9"].
Proof.
  destruct (addFlow_create_round_trip (Some Demo.sketch) None None "id-9" "down" Demo.opened
              eq_refl ltac:(intros q []))
    as (_ & _ & _ & Hfl & _).
  change (nextId Demo.opened) with 1%positive in Hfl.
  rewrite Hfl. reflexivity.
Defined.

Lemma addFlow_override_behaviour_witness :
  registry_of (advance 199 (addFlow_override_resume Demo.sketch "id-9" Demo.opened))
  = registry_of Demo.opened
  /\ flow_id <$> flows (advance 200 (addFlow_override_resume Demo.sketch "id-9" Demo.opened))
     = ["id-9"].
Proof.
  destruct (@addFlow_override_behaviour _ _ _ _ _ Demo.externals) as (_ & _ & Hsettle).
  destruct (Hsettle Demo.sketch "id-9" 199 Demo.opened eq_refl) as [Hbefore _].
  destruct (Hsettle Demo.sketch "id-9" 200 Demo.opened eq_refl) as [_ Hafter].
  split.
  - apply Hbefore. lia.
  - destruct Hafter as (Hfl & _); [lia |]. rewrite Hfl. reflexivity.
Defined.

